(** * Catenae link: a shallow embedding of [catenae/link.py]

    The runtime core of a stream-processing link: producer, consumer
    scheduling, transform dispatch, RPC and the peer store.  Python
    functions of [link.py] are embedded as Rocq functions that keep their
    names.  Code that mutates the link or raises runs in a small
    state-and-exception monad over the [Link] record; what the code does to
    its collaborators (logger, Kafka producer and consumer, callbacks, RPC
    handlers, the JSON-RPC pipe) is recorded as a journal of events.

    Python floats are idealised as exact rationals ([Q]): rounding and
    overflow of [math.pow], [/] and [*] are not modelled. *)

From Stdlib Require Import ZArith QArith Qpower Qfield Lia Lqa List String Ascii.
From stdpp Require Import gmap strings list fin_maps pretty.

Local Open Scope string_scope.
Local Open Scope Z_scope.
Local Open Scope list_scope.

(** ** Python values *)

Inductive PyType :=
| TNoneType | TBool | TInt | TFloat | TStr | TBytes | TList | TTuple | TDict
| TType | TFunction | TObject | TElectron.

Definition PyType_eqb (a b : PyType) : bool :=
  match a, b with
  | TNoneType, TNoneType | TBool, TBool | TInt, TInt | TFloat, TFloat
  | TStr, TStr | TBytes, TBytes | TList, TList | TTuple, TTuple
  | TDict, TDict | TType, TType | TFunction, TFunction | TObject, TObject
  | TElectron, TElectron => true
  | _, _ => false
  end.

Inductive CallbackType := COMMIT_KAFKA_MESSAGE.

(** Modelled from the spec: the [Callback] class of [callback.py], which is
    not among the sources: "a deferred invocation consisting of target,
    positional arguments, keyword arguments, and a kind tag". *)
Record Callback_ (V : Type) := mkCallback {
  target : V;
  args : V;
  kwargs : V;
  type_ : option CallbackType
}.
Arguments mkCallback {V}.
Arguments target {V}.
Arguments args {V}.
Arguments kwargs {V}.
Arguments type_ {V}.

(** Modelled from the spec: the [Electron] (envelope) class of
    [electron.py], which is not among the sources: "a record with a key, a
    value, the prior origin topic, a destination topic, a list of completion
    callbacks, and a treat-string-as-literal flag". *)
Record Electron_ (V : Type) := mkElectron {
  key : V;
  value : V;
  topic : option string;
  previous_topic : option string;
  unpack_if_string : bool;
  callbacks : list (Callback_ V)
}.
Arguments mkElectron {V}.
Arguments key {V}.
Arguments value {V}.
Arguments topic {V}.
Arguments previous_topic {V}.
Arguments unpack_if_string {V}.
Arguments callbacks {V}.

#[warnings="-register-all"]
Inductive PyVal :=
| VNone
| VBool (b : bool)
| VInt (n : Z)
| VStr (s : string)
| VBytes (b : list Byte.byte)
| VList (items : list PyVal)
| VTuple (items : list PyVal)
| VDict (items : list (string * PyVal))
| VType (t : PyType)
| VFun (name : string)
| VObj (name : string)
| VElectron (e : Electron_ PyVal).

Abbreviation Callback := (Callback_ PyVal).
Abbreviation Electron := (Electron_ PyVal).

(** [type(v)] *)
Definition py_type (v : PyVal) : PyType :=
  match v with
  | VNone => TNoneType
  | VBool _ => TBool
  | VInt _ => TInt
  | VStr _ => TStr
  | VBytes _ => TBytes
  | VList _ => TList
  | VTuple _ => TTuple
  | VDict _ => TDict
  | VType _ => TType
  | VFun _ => TFunction
  | VObj _ => TObject
  | VElectron _ => TElectron
  end.

(** Truth value of a list: empty lists are false. *)
Definition list_truthy {A} (l : list A) : bool :=
  negb (Nat.eqb (List.length l) 0).

(** Truth value of [v] in a condition ([if v:], [not v]).  Classes,
    functions and plain objects are true. *)
Definition py_truthy (v : PyVal) : bool :=
  match v with
  | VNone => false
  | VBool b => b
  | VInt n => negb (n =? 0)
  | VStr s => negb (String.eqb s "")
  | VBytes b => list_truthy b
  | VList l => list_truthy l
  | VTuple l => list_truthy l
  | VDict l => list_truthy l
  | VType _ => true
  | VFun _ => true
  | VObj _ => true
  | VElectron _ => true
  end.

(** [v != cls] for a class object [cls]: classes compare by identity, so the
    result is [False] only when [v] is that very class. *)
Definition py_ne_class (v : PyVal) (cls : PyType) : PyVal :=
  match v with
  | VType t => VBool (negb (PyType_eqb t cls))
  | _ => VBool true
  end.

(** Truth value of an optional string ([None] and [''] are false). *)
Definition str_truthy (s : option string) : bool :=
  match s with
  | None => false
  | Some s => negb (String.eqb s "")
  end.

(** CPython keeps one shared object for every integer from -5 to 256; any
    other integer computed at run time is a fresh object.  So [a is b] on
    two computed integers holds exactly when they are equal and lie in that
    range. *)
Definition py_small_int (n : Z) : bool := (-5 <=? n) && (n <=? 256).
Definition py_is_int (a b : Z) : bool := (a =? b) && py_small_int a.

(** [range(n)] *)
Definition py_range (n : Z) : list Z := map Z.of_nat (seq 0 (Z.to_nat n)).

(** [enumerate(l)] *)
Definition py_enumerate {A} (l : list A) : list (Z * A) :=
  combine (py_range (Z.of_nat (List.length l))) l.

(** ** Exceptions and results *)

Inductive PyExc :=
| ValueError | IndexError | KeyError | NameError | UnboundLocalError
| AttributeError | TypeError | MethodNotFoundError | InternalError
| OtherException.

Inductive Result (A : Type) :=
| Ret (a : A)
| Raise (e : PyExc).
Arguments Ret {A}.
Arguments Raise {A}.

(** ** Events the link causes on its collaborators *)

Inductive LogLevel := DEBUG | INFO | WARN | ERROR | EXCEPTION.

Inductive Payload :=
| RawString (s : string)
| Pickled (b : list Byte.byte).

Inductive Event :=
| Log (level : LogLevel) (msg : string)
| Produce (sync_producer : bool) (topic : string)
          (partition_key : option (list Byte.byte)) (value : Payload)
| Poll
| Flush
| Execute (cb : Callback)
| Invoke (method : string) (args : list PyVal) (kwargs : list (string * PyVal))
| Commit
| PipeSend (error_code : option Z) (result : PyVal).

(** ** The link *)

(** One Kafka message as the consumers hand it over. *)
Record Message := mkMessage {
  msg_topic : string;
  msg_key : PyVal;
  msg_value : PyVal
}.

Inductive QueueItem :=
| QMessage (m : Message)
| QTuple (m : Message) (commit_target : PyVal) (commit_args : PyVal).

(** Modelled from the spec: the [LinkQueue] class of [custom_queue.py], which
    is not among the sources: "an in-process FIFO" with "a weighted-admission
    counter ... initialized to an implementation-chosen value, decremented
    each time a message is admitted ... and reset". *)
Record LinkQueue := mkLinkQueue {
  items : list QueueItem;
  messages_left : Z;
  messages_left_initial : Z
}.

Definition LinkQueue_put (q : LinkQueue) (x : QueueItem) : LinkQueue :=
  mkLinkQueue (items q ++ [x]) (messages_left q) (messages_left_initial q).
Definition decrement_messages_left (q : LinkQueue) : LinkQueue :=
  mkLinkQueue (items q) (messages_left q - 1) (messages_left_initial q).
Definition reset_messages_left (q : LinkQueue) : LinkQueue :=
  mkLinkQueue (items q) (messages_left_initial q) (messages_left_initial q).

(** One peer of the store, [dict(host=, port=, scheme=, uid=, group=)]. *)
Record InstanceInfo := mkInstanceInfo {
  info_host : string;
  info_port : string;
  info_scheme : string;
  info_uid : string;
  info_group : string
}.

(** [self._store = {'by_uid': dict(), 'by_group': dict()}] *)
Record Store := mkStore {
  by_uid : gmap string InstanceInfo;
  by_group : gmap string (gmap string InstanceInfo)
}.

Record Link := mkLink {
  _uid : string;
  _consumer_group : string;
  _synchronous : bool;
  _sequential : bool;
  _input_mode : string;
  _input_topics : list string;
  _output_topics : list string;
  _input_topic_assignments : gmap (Z + string) Q;
  _input_messages : LinkQueue;
  _output_messages : list Electron;
  _store : Store;
  (** the stop flag of the runtime threads, raised by [suicide] *)
  will_stop : bool;
  (** everything the link did to the outside, oldest first *)
  journal : list Event
}.

Definition with_journal (self : Link) (j : list Event) : Link :=
  mkLink (_uid self) (_consumer_group self) (_synchronous self)
         (_sequential self) (_input_mode self) (_input_topics self)
         (_output_topics self) (_input_topic_assignments self)
         (_input_messages self) (_output_messages self) (_store self)
         (will_stop self) j.

Definition with_will_stop (self : Link) (b : bool) : Link :=
  mkLink (_uid self) (_consumer_group self) (_synchronous self)
         (_sequential self) (_input_mode self) (_input_topics self)
         (_output_topics self) (_input_topic_assignments self)
         (_input_messages self) (_output_messages self) (_store self)
         b (journal self).

Definition with_input_topic_assignments (self : Link)
    (a : gmap (Z + string) Q) : Link :=
  mkLink (_uid self) (_consumer_group self) (_synchronous self)
         (_sequential self) (_input_mode self) (_input_topics self)
         (_output_topics self) a
         (_input_messages self) (_output_messages self) (_store self)
         (will_stop self) (journal self).

Definition with_input_messages (self : Link) (q : LinkQueue) : Link :=
  mkLink (_uid self) (_consumer_group self) (_synchronous self)
         (_sequential self) (_input_mode self) (_input_topics self)
         (_output_topics self) (_input_topic_assignments self)
         q (_output_messages self) (_store self)
         (will_stop self) (journal self).

Definition with_output_messages (self : Link) (q : list Electron) : Link :=
  mkLink (_uid self) (_consumer_group self) (_synchronous self)
         (_sequential self) (_input_mode self) (_input_topics self)
         (_output_topics self) (_input_topic_assignments self)
         (_input_messages self) q (_store self)
         (will_stop self) (journal self).

Definition with_store (self : Link) (s : Store) : Link :=
  mkLink (_uid self) (_consumer_group self) (_synchronous self)
         (_sequential self) (_input_mode self) (_input_topics self)
         (_output_topics self) (_input_topic_assignments self)
         (_input_messages self) (_output_messages self) s
         (will_stop self) (journal self).

(** ** The monad of link methods: state [Link], exceptions [PyExc] *)

Definition M (A : Type) : Type := Link -> Result A * Link.

Definition ret {A} (a : A) : M A := fun self => (Ret a, self).
Definition raise {A} (e : PyExc) : M A := fun self => (Raise e, self).
Definition bind {A B} (m : M A) (k : A -> M B) : M B :=
  fun self =>
    match m self with
    | (Ret a, self') => k a self'
    | (Raise e, self') => (Raise e, self')
    end.

Declare Scope link_scope.
Delimit Scope link_scope with link.
Notation "x <- m ;; k" := (bind m (fun x => k))
  (at level 100, m at next level, right associativity) : link_scope.
Notation "m ;;; k" := (bind m (fun _ => k))
  (at level 100, right associativity) : link_scope.
Local Open Scope link_scope.

(** [try: body  except Exception: handler] *)
Definition try_except {A} (body : M A) (handler : M A) : M A :=
  fun self =>
    match body self with
    | (Ret a, self') => (Ret a, self')
    | (Raise _, self') => handler self'
    end.

Definition get : M Link := fun self => (Ret self, self).
Definition emit (e : Event) : M unit :=
  fun self => (Ret tt, with_journal self (journal self ++ [e])).
Definition log (level : LogLevel) (msg : string) : M unit := emit (Log level msg).
Definition when (b : bool) (m : M unit) : M unit := if b then m else ret tt.
Definition lift {A} (r : Result A) : M A := fun self => (r, self).

(** [for x in l: body x] *)
Fixpoint for_each {A} (l : list A) (body : A -> M unit) : M unit :=
  match l with
  | [] => ret tt
  | x :: rest => body x ;;; for_each rest body
  end.

(** The events a run adds to the journal. *)
Definition run_journal {A} (m : M A) (self : Link) : list Event :=
  journal (snd (m self)).

(** ** [suicide] *)

Definition suicide (message : option string) (exception : bool) : M unit :=
  let message :=
    match message with
    | None => "[SUICIDE]"
    | Some m => "[SUICIDE] " +:+ m
    end in
  (if exception then log EXCEPTION message else log WARN message) ;;;
  (fun self => (Ret tt, with_will_stop self true)) ;;;
  log INFO "stopping threads...".

(** ** Weighted topic budgets *)

Definition Qltb (a b : Q) : bool := negb (Qle_bool b a).

(** [Link.in_time]; [now] is the reading of [utils.get_timestamp_ms()]. *)
Definition in_time (now : Q) (start_time assigned_time : Q) : bool :=
  Qltb (start_time - now) assigned_time.

(** The condition of the slice loop of [_kafka_consumer_main]. *)
Definition slice_loop_condition (now start_time assigned_time : Q)
    (stop : bool) : bool :=
  (Qeq_bool assigned_time (-1) || in_time now start_time assigned_time)
  && negb stop.

(** The loop of [_get_index_assignment]: the state is the pair of locals
    [index_assignment] (unbound until first assigned) and
    [aggregated_value]. *)
Definition index_assignment_step (base : Q) (reverse_index : Z)
    (st : option Q * Q) (index : Z) : option Q * Q :=
  let value := (base ^ index)%Q in
  let index_assignment :=
    if py_is_int index reverse_index then Some value else fst st in
  (index_assignment, (snd st + value)%Q).

Definition _get_index_assignment (window_size : Q) (index elements_no : Z)
    (base : Q) : Result Q :=
  let aggregated_value := 0%Q in
  let reverse_index := elements_no - index - 1 in
  let st := fold_left (index_assignment_step base reverse_index)
                      (py_range elements_no) (None, aggregated_value) in
  match fst st with
  | None => Raise UnboundLocalError
  | Some index_assignment => Ret ((index_assignment / snd st) * window_size)%Q
  end.

Definition base_default : Q := 17 # 10.

(** The body of the loop of [_set_input_topic_assignments]. *)
Definition assign_topic (window_size : Q) (topics_no : Z) (it : Z * string)
    : M unit :=
  let '(index, topic) := it in
  topic_assingment <-
    lift (_get_index_assignment window_size index topics_no base_default) ;;
  (fun self => (Ret tt, with_input_topic_assignments self
                 (<[ inr topic := topic_assingment ]>
                    (_input_topic_assignments self)))) ;;;
  log INFO (" - " +:+ topic +:+ ": {topic_assingment} seconds").

Definition _set_input_topic_assignments : M unit :=
  self <- get ;;
  if String.eqb (_input_mode self) "parity" then
    fun self => (Ret tt, with_input_topic_assignments self {[ inl (-1) := (-1)%Q ]})
  else if String.eqb (_input_mode self) "exp" then
    (fun self => (Ret tt, with_input_topic_assignments self ∅)) ;;;
    first <- lift (match _input_topics self with
                   | [] => Raise IndexError
                   | t :: _ => Ret t
                   end) ;;
    when (Nat.eqb (String.length first) 1)
         (fun self => (Ret tt, with_input_topic_assignments self
                        (<[ inr first := (-1)%Q ]> (_input_topic_assignments self)))) ;;;
    let window_size := 900%Q in
    let topics_no := Z.of_nat (List.length (_input_topics self)) in
    log INFO "input topics time assingments:" ;;;
    for_each (py_enumerate (_input_topics self))
             (assign_topic window_size topics_no)
  else ret tt.

(** ** Envelopes and callbacks *)

(** Modelled from the spec: the constructor of [Electron] in [electron.py],
    which is not among the sources; every field that the caller leaves out
    is unset and the callback list is empty. *)
Definition Electron_new (key value : PyVal) (topic : option string)
    (unpack_if_string : bool) : Electron :=
  mkElectron key value topic None unpack_if_string [].

Definition with_topic (e : Electron) (t : option string) : Electron :=
  mkElectron (key e) (value e) t (previous_topic e) (unpack_if_string e)
             (callbacks e).

Definition with_callbacks (e : Electron) (cbs : list Callback) : Electron :=
  mkElectron (key e) (value e) (topic e) (previous_topic e)
             (unpack_if_string e) cbs.

(** Modelled from the spec: [Electron.deepcopy] of [electron.py], which is
    not among the sources: "copying produces an independent instance".
    Values carry no identity here, so the copy is the value itself. *)
Definition deepcopy (e : Electron) : Electron := e.

(** Modelled from the spec: [Callback()] of [callback.py], which is not among
    the sources; a callback built without arguments has no target. *)
Definition Callback_new (type_ : option CallbackType) : Callback :=
  mkCallback VNone VNone VNone type_.

Definition with_target (cb : Callback) (t : PyVal) : Callback :=
  mkCallback t (args cb) (kwargs cb) (type_ cb).
Definition with_args (cb : Callback) (a : PyVal) : Callback :=
  mkCallback (target cb) a (kwargs cb) (type_ cb).
Definition with_kwargs (cb : Callback) (k : PyVal) : Callback :=
  mkCallback (target cb) (args cb) k (type_ cb).

(** Modelled from the spec: the truth value of a [Callback] ([callback.py] is
    not among the sources): the commit callback "if any" and the user
    callback "if any" are those that have been given a target. *)
Definition Callback_bool (cb : Callback) : bool :=
  match target cb with
  | VNone => false
  | _ => true
  end.

(** Modelled from the spec: [Callback.execute] of [callback.py], which is not
    among the sources: it "applies target with args/kwargs", or advances the
    source-message offset for a commit callback.  The journal records the
    execution. *)
Definition Callback_execute (cb : Callback) : M unit := emit (Execute cb).

(** The callbacks executed, in order, among the events of a journal. *)
Fixpoint executed (j : list Event) : list Callback :=
  match j with
  | [] => []
  | Execute cb :: rest => cb :: executed rest
  | _ :: rest => executed rest
  end.

(** The [produce] calls, in order, among the events of a journal. *)
Fixpoint produced (j : list Event) : list Event :=
  match j with
  | [] => []
  | Produce s t k v :: rest => Produce s t k v :: produced rest
  | _ :: rest => produced rest
  end.

(** Whether a journal holds a log entry of the given level. *)
Definition logged_at (level : LogLevel) (e : Event) : bool :=
  match e, level with
  | Log DEBUG _, DEBUG | Log INFO _, INFO | Log WARN _, WARN
  | Log ERROR _, ERROR | Log EXCEPTION _, EXCEPTION => true
  | _, _ => false
  end.

(** What the Kafka producer does on one [_produce]: every call returns, or
    [produce] raises, or the delivery call after it ([poll] or [flush])
    raises. *)
Inductive ProducerFault := NoFault | ProduceRaises | DeliveryRaises.

Definition dquote : string := String (Ascii.ascii_of_nat 34) "".

Section LinkMethods.

(** [str.encode('utf-8')] and [pickle.dumps(_, protocol=HIGHEST_PROTOCOL)]
    of the Python library, and [Electron.get_sendable] of [electron.py]
    (not among the sources). *)
Variable encode_utf8 : string -> list Byte.byte.
Variable pickle_dumps : PyVal -> list Byte.byte.
Variable get_sendable : Electron -> PyVal.

(** The partition key chosen by [_produce]. *)
Definition partition_key_of (self : Link) (electron : Electron)
    : option (list Byte.byte) :=
  if py_truthy (key electron) then
    match key electron with
    | VStr s => Some (encode_utf8 s)
    | k => Some (pickle_dumps k)
    end
  else if _sequential self then Some (encode_utf8 (_uid self))
  else None.

(** The destination topic chosen by [_produce]; [electron.topic] is
    overwritten with it. *)
Definition destination_topic (electron : Electron) : M string :=
  self <- get ;;
  if negb (str_truthy (topic electron)) then
    when (negb (list_truthy (_output_topics self)))
         (suicide (Some "Electron / default output topic unset") false) ;;;
    lift (match _output_topics self with
          | [] => Raise IndexError
          | t :: _ => Ret t
          end)
  else ret (default "" (topic electron)).

(** The serialized value chosen by [_produce]. *)
Definition serialize (electron : Electron) : Payload :=
  match unpack_if_string electron, value electron with
  | true, VStr s => RawString s
  | _, _ => Pickled (pickle_dumps (get_sendable electron))
  end.

Definition _produce (fault : ProducerFault) (electron : PyVal)
    (synchronous : option bool) : M unit :=
  match electron with
  | VElectron electron =>
      self <- get ;;
      let partition_key := partition_key_of self electron in
      t <- destination_topic electron ;;
      let electron := with_topic electron (Some t) in
      let serialized_electron := serialize electron in
      let synchronous := default (_synchronous self) synchronous in
      try_except
        (emit (Produce synchronous t partition_key serialized_electron) ;;;
         when (match fault with ProduceRaises => true | _ => false end)
              (raise OtherException) ;;;
         (if negb synchronous then emit Poll else emit Flush) ;;;
         when (match fault with DeliveryRaises => true | _ => false end)
              (raise OtherException) ;;;
         log DEBUG "electron produced")
        (suicide (Some "Kafka producer error") true) ;;;
      when synchronous (for_each (callbacks electron) Callback_execute)
  | _ => raise ValueError
  end.

(** [_kafka_producer], one round: take the oldest envelope of
    [_output_messages] and produce it. *)
Definition _kafka_producer_step (fault : ProducerFault) : M unit :=
  self <- get ;;
  match _output_messages self with
  | [] => ret tt
  | electron :: rest =>
      (fun self => (Ret tt, with_output_messages self rest)) ;;;
      _produce fault (VElectron electron) None
  end.

(** ** [_transform] *)

(** Items of a returned list become envelopes. *)
Definition real_electron (item : PyVal) : Electron :=
  match item with
  | VElectron e => e
  | v => Electron_new VNone v None true
  end.

(** [electrons[-1].callbacks = cbs].  The envelopes of the list are taken
    to be distinct objects: an envelope that the list holds twice would
    change at both places. *)
Fixpoint set_last_callbacks (electrons : list Electron) (cbs : list Callback)
    : list Electron :=
  match electrons with
  | [] => []
  | [e] => [with_callbacks e cbs]
  | e :: rest => e :: set_last_callbacks rest cbs
  end.

(** The callback taken from a returned tuple
    [(result, target[, args-or-kwargs])]. *)
Definition tuple_callback (items : list PyVal) (transform_callback : Callback)
    : Callback :=
  match items with
  | _ :: t :: more =>
      let cb := with_target transform_callback t in
      match more with
      | VList a :: _ => with_args cb (VList a)
      | VDict k :: _ => with_kwargs cb (VDict k)
      | _ => cb
      end
  | _ => transform_callback
  end.

(** The callback list given to the last envelope: the commit callback,
    then the user callback, each only when it is set. *)
Definition last_callbacks
    (commit_kafka_message_callback transform_callback : Callback)
    : list Callback :=
  let cbs : list Callback := [] in
  let cbs := if Callback_bool commit_kafka_message_callback
             then (cbs ++ [commit_kafka_message_callback])%list else cbs in
  let cbs := if Callback_bool transform_callback
             then (cbs ++ [transform_callback])%list else cbs in
  cbs.

(** The first lines after the call of [transform]: a returned tuple is
    split into the result and the user callback. *)
Definition returned_parts (transform_result : PyVal)
    (transform_callback : Callback) : Result (PyVal * Callback) :=
  match transform_result with
  | VTuple [] => Raise IndexError
  | VTuple (first :: more) =>
      Ret (first, tuple_callback (first :: more) transform_callback)
  | v => Ret (v, transform_callback)
  end.

(** The result normalized to a list of envelopes. *)
Definition as_electrons (electrons : PyVal) : list Electron :=
  let electrons := match electrons with VNone => VList [] | v => v end in
  match electrons with
  | VList items => map real_electron items
  | VElectron e => [e]
  | v => [Electron_new VNone v None false]
  end.

(** [outcome] is what the user's [transform] did on the input envelope:
    the value it returned, or the exception it raised. *)
Definition _transform (outcome : Result PyVal)
    (commit_kafka_message_callback transform_callback : Callback) : M unit :=
  transform_result <-
    match outcome with
    | Ret v => log DEBUG "electron transformed" ;;; ret v
    | Raise _ =>
        suicide (Some ("exception during the execution of " +:+ dquote
                       +:+ "transform" +:+ dquote)) true ;;;
        raise UnboundLocalError
    end ;;
  parts <- lift (returned_parts transform_result transform_callback) ;;
  let '(electrons, transform_callback) := parts in
  let electrons := as_electrons electrons in
  if list_truthy electrons then
    let electrons :=
      set_last_callbacks electrons
        (last_callbacks commit_kafka_message_callback transform_callback) in
    for_each electrons (fun electron self =>
      (Ret tt, with_output_messages self (_output_messages self ++ [electron])%list))
  else
    self <- get ;;
    when (_synchronous self && Callback_bool commit_kafka_message_callback)
         (Callback_execute commit_kafka_message_callback).

(** ** [send] *)

(** The guard of the second branch of [send], [type(output_content != list)]:
    the class of the value of the comparison. *)
Definition send_wrap_guard (output_content : PyVal) : bool :=
  py_truthy (VType (py_type (py_ne_class output_content TList))).

Fixpoint send (fault : ProducerFault) (output_content : PyVal)
    (topic : option string) (callback : option Callback)
    (callbacks : option (list Callback)) (synchronous : option bool)
    {struct output_content} : M unit :=
  electron <-
    match output_content with
    | VElectron e =>
        let e := if str_truthy topic then with_topic e topic else e in
        ret (deepcopy e)
    | _ =>
        if send_wrap_guard output_content then
          ret (Electron_new VNone output_content topic true)
        else
          match output_content with
          | VList items =>
              for_each items (fun item =>
                send fault item topic None None None) ;;;
              (* [electron] is not bound on this path *)
              raise UnboundLocalError
          | _ => raise UnboundLocalError
          end
    end ;;
  let callbacks :=
    match callback with
    | Some cb => Some [cb]
    | None => callbacks
    end in
  let electron :=
    match callbacks with
    | Some cbs => with_callbacks electron cbs
    | None => electron
    end in
  self <- get ;;
  let synchronous := default (_synchronous self) synchronous in
  if synchronous then _produce fault (VElectron electron) (Some true)
  else fun self =>
    (Ret tt, with_output_messages self (_output_messages self ++ [electron])%list).

End LinkMethods.

(** ** RPC *)

(** Modelled from the spec: the constants [JsonRPC.METHOD_NOT_FOUND] and
    [JsonRPC.INTERNAL_ERROR] of [json_rpc.py], which is not among the
    sources: "code -32601 (method-not-found) or -32603 (internal-error)". *)
Definition METHOD_NOT_FOUND : Z := -32601.
Definition INTERNAL_ERROR : Z := -32603.

(** Whether [hash(v)] returns: a list or a dict cannot be hashed, nor a
    tuple that holds one. *)
Fixpoint py_hashable (v : PyVal) : bool :=
  match v with
  | VList _ | VDict _ => false
  | VTuple items => forallb py_hashable items
  | _ => true
  end.

(** [registry] is the module-level set [_rpc_enabled_methods], a set of
    method names.  The test [method in _rpc_enabled_methods] hashes
    [method]: it raises [TypeError] on a value that cannot be hashed, and no
    value other than a string equals a name. *)
Definition _rpc_enabled_method (registry : gset string) (method : PyVal)
    : Result bool :=
  match method with
  | VStr m => Ret (if bool_decide (m ∈ registry) then true else false)
  | v => if py_hashable v then Ret false else Raise TypeError
  end.

(** A value inside an f-string; strings are rendered, any other value is
    left as a placeholder. *)
Definition fmt (v : PyVal) : string :=
  match v with
  | VStr s => s
  | _ => "{}"
  end.

Fixpoint dict_get (d : list (string * PyVal)) (k : string) : Result PyVal :=
  match d with
  | [] => Raise KeyError
  | (k', v) :: rest => if String.eqb k k' then Ret v else dict_get rest k
  end.

(** [v[k]] *)
Definition py_getitem (v : PyVal) (k : string) : Result PyVal :=
  match v with
  | VDict d => dict_get d k
  | _ => Raise TypeError
  end.

(** [k in v] *)
Definition py_contains (v : PyVal) (k : string) : bool :=
  match v with
  | VDict d => existsb (fun kv => String.eqb k (fst kv)) d
  | _ => false
  end.

(** [v.update({k: x})] *)
Definition py_update (v : PyVal) (k : string) (x : PyVal) : Result PyVal :=
  match v with
  | VDict d =>
      Ret (VDict (List.filter (fun kv => negb (String.eqb (fst kv) k)) d
                  ++ [(k, x)]))
  | _ => Raise AttributeError
  end.

Definition opt_str (s : option string) : PyVal :=
  match s with
  | None => VNone
  | Some s => VStr s
  end.

(** [_jsonrpc_call]; [outcome] is what the call of [getattr(self, method)]
    on the keyword arguments does: the value it returns or the exception it
    raises. *)
Definition _jsonrpc_call (registry : gset string) (outcome : Result PyVal)
    (method : PyVal) (kwargs : option (list (string * PyVal))) : M PyVal :=
  enabled <- lift (_rpc_enabled_method registry method) ;;
  if negb enabled then
    log DEBUG ("method " +:+ fmt method +:+ " cannot be called") ;;;
    raise MethodNotFoundError
  else
    let kwargs := default [] kwargs in
    try_except
      (emit (Invoke (fmt method) [] kwargs) ;;; lift outcome)
      (log EXCEPTION "" ;;; raise InternalError).

(** [_rpc_request_monitor], one round with a request waiting on the pipe.
    The RPC lock is held around the call.  [sent] is what the send of the
    answer on the pipe does. *)
Definition _rpc_request_monitor_step (registry : gset string)
    (outcome : Result PyVal) (sent : Result unit) (is_notification : bool)
    (method : PyVal) (kwargs : option (list (string * PyVal))) : M unit :=
  reply <- (fun self =>
    match _jsonrpc_call registry outcome method kwargs self with
    | (Ret result, self') => (Ret (None, result), self')
    | (Raise MethodNotFoundError, self') =>
        (Ret (Some METHOD_NOT_FOUND, VNone), self')
    | (Raise InternalError, self') => (Ret (Some INTERNAL_ERROR, VNone), self')
    | (Raise e, self') => (Raise e, self')
    end) ;;
  when (negb is_notification)
       (emit (PipeSend (fst reply) (snd reply)) ;;; lift sent).

(** [_kafka_rpc_call]; [outcome] is what the call of the handler does. *)
Definition _kafka_rpc_call (registry : gset string) (outcome : Result PyVal)
    (electron : Electron) (commit_kafka_message_callback : Callback) : M unit :=
  method <- lift (py_getitem (value electron) "method") ;;
  enabled <- lift (_rpc_enabled_method registry method) ;;
  if negb enabled then
    log DEBUG ("method " +:+ fmt method +:+ " cannot be called")
  else if negb (py_contains (value electron) "method") then
    (* under the RPC lock *)
    log ERROR "invalid RPC invocation: {}"
  else
    (* under the RPC lock, released in the [finally] *)
    try_except
      (context <- lift (py_getitem (value electron) "context") ;;
       context <- lift (py_update context "topic"
                                  (opt_str (previous_topic electron))) ;;
       uid <- lift (py_getitem context "uid") ;;
       group <- lift (py_getitem context "group") ;;
       log DEBUG ("RPC invocation from " +:+ fmt uid +:+ " (" +:+ fmt group +:+ ")") ;;;
       kw <- lift (py_getitem (value electron) "kwargs") ;;
       if py_truthy kw then
         kw <- lift (py_update kw "context" context) ;;
         emit (Invoke (fmt method) []
                      (match kw with VDict d => d | _ => [] end)) ;;;
         _ <- lift outcome ;; ret tt
       else
         a <- lift (py_getitem (value electron) "args") ;;
         let args :=
           if negb (py_truthy a) then [context]
           else match a with
                | VList l => context :: l
                | _ => [context; a]
                end in
         emit (Invoke (fmt method) args []) ;;;
         _ <- lift outcome ;; ret tt)
      (log EXCEPTION ("error when invoking " +:+ fmt method +:+ " remotely")) ;;;
    self <- get ;;
    when (_synchronous self) (Callback_execute commit_kafka_message_callback).

(** ** [_commit_kafka_message] *)

(** The [while not commited] loop.  [commit_ok k] tells whether the [k]-th
    call of [consumer.commit] returns ([true]) or raises; [fuel] bounds the
    rounds unfolded.  The result is [Some attempts] when the loop has been
    left and [None] when it is still running after [fuel] rounds. *)
Fixpoint commit_loop (fuel : nat) (commit_ok : nat -> bool) (call : nat)
    (attempts : Z) : M (option Z) :=
  match fuel with
  | O => ret None
  | S fuel =>
      when (1 <? attempts)
           (log WARN "trying to commit the message with value {} (attempt {})") ;;;
      emit Commit ;;;
      if commit_ok call then
        (* commited = True; attempts += 1 *)
        ret (Some (attempts + 1))
      else
        log EXCEPTION "exception when trying to commit the message with value {}" ;;;
        (* continue *)
        commit_loop fuel commit_ok (S call) attempts
  end.

Definition _commit_kafka_message (fuel : nat) (commit_ok : nat -> bool)
    : M bool :=
  let attempts := 0 in
  log DEBUG "trying to commit the message with value {} (attempt {})" ;;;
  r <- commit_loop fuel commit_ok O attempts ;;
  match r with
  | Some _ => log DEBUG "Message with value {} commited" ;;; ret true
  | None => ret false
  end.

(** ** The peer store *)

(** [env_host] and [env_port] are [environ['JSONRPC_HOST']] and
    [environ['JSONRPC_PORT']]. *)
Definition _it_is_me (env_host env_port host port : string) : bool :=
  if String.eqb host env_host && String.eqb port env_port then true else false.

(** [add_to_store]; [available] is the answer of [_is_instance_available],
    the probe of the peer over direct RPC. *)
Definition add_to_store (env_host env_port : string) (available : bool)
    (context_uid context_group : string) (host port scheme : string) : M unit :=
  if _it_is_me env_host env_port host port then ret tt
  else if negb available then ret tt
  else
    let instance_info :=
      mkInstanceInfo host port scheme context_uid context_group in
    fun self =>
      let store := _store self in
      let by_uid' := <[ context_uid := instance_info ]> (by_uid store) in
      let by_group' :=
        match by_group store !! context_group with
        | None => <[ context_group := ∅ ]> (by_group store)
        | Some _ => by_group store
        end in
      let by_group' :=
        <[ context_group :=
             <[ context_uid := instance_info ]>
               (default ∅ (by_group' !! context_group)) ]> by_group' in
      (Ret tt, with_store self (mkStore by_uid' by_group')).

(** One announcement received by [add_to_store]. *)
Record Announce := mkAnnounce {
  ann_available : bool;
  ann_uid : string;
  ann_group : string;
  ann_host : string;
  ann_port : string;
  ann_scheme : string
}.

Definition add_announce (env_host env_port : string) (a : Announce) : M unit :=
  add_to_store env_host env_port (ann_available a) (ann_uid a) (ann_group a)
               (ann_host a) (ann_port a) (ann_scheme a).

(** A call that gets past both guards and inserts. *)
Definition successful (env_host env_port : string) (a : Announce) : bool :=
  negb (_it_is_me env_host env_port (ann_host a) (ann_port a))
  && ann_available a.

(** The by-uid / by-group symmetry of the store. *)
Definition store_symmetric (s : Store) : Prop :=
  forall uid : string,
    is_Some (by_uid s !! uid) <->
    exists (group : string) (members : gmap string InstanceInfo),
      by_group s !! group = Some members /\ is_Some (members !! uid).

Definition empty_store : Store := mkStore ∅ ∅.

(** ** The main consumer *)

Definition _break_consumer_loop (self : Link) (subscription : list string)
    : bool :=
  (1 <? Z.of_nat (List.length subscription))
  && negb (String.eqb (_input_mode self) "parity").

(** The subscription built for one key of the topic assignments. *)
Definition subscription_for (topic : string) : M (list string) :=
  self <- get ;;
  if String.eqb (_input_mode self) "exp" then ret [topic]
  else if String.eqb (_input_mode self) "parity" then ret (_input_topics self)
  else
    suicide (Some "Unknown priority mode") false ;;;
    (* [subscription] is not bound on this path *)
    raise UnboundLocalError.

(** The locals of [_kafka_consumer_main] that live across messages. *)
Record SliceState := mkSliceState {
  message_buffer : list Message;
  prev_queued_messages : Z
}.

Inductive LoopControl := Continue | Break.

(** The condition of the penalization [break]. *)
Definition penalization (self : Link) (subscription : list string)
    (current_queued_messages prev_queued_messages : Z) : bool :=
  negb (_break_consumer_loop self subscription)
  && (1 <? current_queued_messages)
  && (prev_queued_messages - 2 <? current_queued_messages).

Definition put_input (x : QueueItem) : M unit :=
  fun self =>
    (Ret tt, with_input_messages self (LinkQueue_put (_input_messages self) x)).

(** The body of the slice loop for one polled message that carries data and
    no error. *)
Definition consume_message (topic : string) (subscription : list string)
    (message : Message) (st : SliceState) : M (SliceState * LoopControl) :=
  self <- get ;;
  if _synchronous self then
    put_input (QTuple message (VFun "_commit_kafka_message")
                      (VList [VObj "consumer"; VObj "message"])) ;;;
    ret (st, Continue)
  else if (Z.of_nat (List.length subscription) =? 1)
          || String.eqb (_input_mode self) "parity" then
    put_input (QMessage message) ;;;
    ret (st, Continue)
  else
    let message_buffer := (message_buffer st ++ [message])%list in
    let current_queued_messages := Z.of_nat (List.length message_buffer) in
    (fun self => (Ret tt, with_input_messages self
                            (decrement_messages_left (_input_messages self)))) ;;;
    self <- get ;;
    message_buffer <-
      (if messages_left (_input_messages self) <? 1 then
         for_each message_buffer (fun m => put_input (QMessage m)) ;;;
         (fun self => (Ret tt, with_input_messages self
                                 (reset_messages_left (_input_messages self)))) ;;;
         ret []
       else ret message_buffer) ;;
    if penalization self subscription current_queued_messages
                    (prev_queued_messages st) then
      log INFO ("penalized topic: " +:+ topic) ;;;
      ret (mkSliceState message_buffer (prev_queued_messages st), Break)
    else
      ret (mkSliceState message_buffer current_queued_messages, Continue).

(** One message of a slice in the mode of the link: the subscription is
    built, then the message is consumed. *)
Definition slice_message (topic : string) (message : Message) (st : SliceState)
    : M (SliceState * LoopControl) :=
  subscription <- subscription_for topic ;;
  consume_message topic subscription message st.

(** ** Sample data *)

Definition sample_link : Link :=
  mkLink "link-1" "catenae_link" true true "exp" ["hi"; "med"; "lo"] ["out"]
         ∅ (mkLinkQueue [] 10 10) [] empty_store false [].

Definition sample_encode (s : string) : list Byte.byte := list_byte_of_string s.
Definition sample_pickle (v : PyVal) : list Byte.byte :=
  match v with
  | VInt n => [Byte.x80; Byte.x4b]
  | _ => [Byte.x80]
  end.
Definition sample_sendable (e : Electron) : PyVal := value e.

Definition commit_cb : Callback :=
  mkCallback (VFun "_commit_kafka_message")
             (VList [VObj "consumer"; VObj "message"]) VNone
             (Some COMMIT_KAFKA_MESSAGE).
Definition user_cb : Callback :=
  mkCallback (VFun "on_published") VNone VNone None.
Definition sample_link_async : Link :=
  mkLink "link-1" "catenae_link" false false "exp" ["hi"; "med"; "lo"] ["out"]
         ∅ (mkLinkQueue [] 10 10) [] empty_store false [].

(** A link with 258 input topics, all distinct. *)
Definition sample_topics (n : nat) : list string :=
  map (fun k : nat => "topic" +:+ pretty k) (seq 0 n).

Definition sample_link_258 : Link :=
  mkLink "link-1" "catenae_link" false false "exp" (sample_topics 258) ["out"]
         ∅ (mkLinkQueue [] 10 10) [] empty_store false [].

Definition sample_message : Message :=
  mkMessage "hi" VNone (VBytes [Byte.x61]).

(** The registry filled by the [@rpc] decorators of [link.py]. *)
Definition sample_registry : gset string :=
  {[ "get_store"; "available"; "add_to_store" ]}.

Definition sample_announces : list Announce :=
  [mkAnnounce true "uid-a" "group-1" "10.0.0.2" "9494" "http";
   mkAnnounce true "uid-b" "group-1" "10.0.0.3" "9494" "http";
   mkAnnounce true "uid-c" "group-2" "10.0.0.4" "9494" "http"].

(** ** Notions used to state the properties *)

(** The destination of envelope [e] resolves to topic [t]: [e] names it, or
    [e] names none and [t] is the first configured output. *)
Definition resolves (e : Electron) (self : Link) (t : string) : Prop :=
  (str_truthy (topic e) = true /\ topic e = Some t) \/
  (str_truthy (topic e) = false /\ exists rest, _output_topics self = t :: rest).

(** The sum of a list of rationals. *)
Definition Qsum (l : list Q) : Q := fold_right Qplus 0%Q l.

(** The sum of [base ^ j] for [j] in [range(n)]. *)
Definition geometric_sum (base : Q) (n : Z) : Q :=
  fold_right Qplus 0%Q (map (Qpower base) (py_range n)).

(** The budget of the topic at [index] among [n] topics, as a formula. *)
Definition budget_formula (window_size base : Q) (n index : Z) : Q :=
  (window_size * base ^ (n - 1 - index) / geometric_sum base n)%Q.

(** Peer [uid] is reachable in the by-group index under [group]. *)
Definition reachable (s : Store) (group uid : string) : Prop :=
  exists members : gmap string InstanceInfo,
    by_group s !! group = Some members /\ is_Some (members !! uid).

(** The store after the two insertions of [add_to_store]. *)
Definition store_insert (s : Store) (uid group : string) (info : InstanceInfo) : Store :=
  mkStore (<[ uid := info ]> (by_uid s))
          (<[ group := <[ uid := info ]> (default ∅ (by_group s !! group)) ]> (by_group s)).

(** The store after one announcement. *)
Definition announce_store (env_host env_port : string) (s : Store) (a : Announce) : Store :=
  if successful env_host env_port a
  then store_insert s (ann_uid a) (ann_group a)
         (mkInstanceInfo (ann_host a) (ann_port a) (ann_scheme a) (ann_uid a) (ann_group a))
  else s.

(** Whether one step of the slice loop leaves the loop. *)
Definition breaks (r : Result (SliceState * LoopControl) * Link) : bool :=
  match fst r with
  | Ret (_, Break) => true
  | _ => false
  end.



(** The link after one round of the loop of [_set_input_topic_assignments]. *)
Definition assigned (self : Link) (t : string) (q : Q) : Link :=
  with_journal
    (with_input_topic_assignments self
       (<[ inr t := q ]> (_input_topic_assignments self)))
    (journal self ++ [Log INFO (" - " +:+ t +:+ ": {topic_assingment} seconds")]).

(** The warnings of a journal. *)
Definition warnings (j : list Event) : list Event :=
  List.filter (logged_at WARN) j.

(** The commit of the failing consumer: the first two calls of
    [consumer.commit] raise, the third returns. *)
Definition fails_twice (call : nat) : bool := Nat.leb 2 call.

(** * Further methods of the link *)

(** ** Configuration *)

(** [s * n] on a text *)
Fixpoint str_repeat (s : string) (n : nat) : string :=
  match n with
  | O => ""
  | S n => s +:+ str_repeat s n
  end.

(** [v * n] for an int [n]: the product of numbers, the repetition of a
    text or a sequence, [TypeError] on a value that has no product. *)
Definition py_mul (v : PyVal) (n : Z) : Result PyVal :=
  match v with
  | VInt k => Ret (VInt (k * n))
  | VBool b => Ret (VInt ((if b then 1 else 0) * n))
  | VStr s => Ret (VStr (str_repeat s (Z.to_nat n)))
  | VBytes b => Ret (VBytes (concat (repeat b (Z.to_nat n))))
  | VList l => Ret (VList (concat (repeat l (Z.to_nat n))))
  | VTuple l => Ret (VTuple (concat (repeat l (Z.to_nat n))))
  | _ => Raise TypeError
  end.

(** The attributes that a subclass or the command line may have set before
    [_set_execution_opts] runs; [None] is an attribute that is not there
    ([hasattr] is false).  The command line stores the thread numbers and
    the consumer timeout as the texts it was given, the topics as lists of
    texts, and the Kafka endpoint as a text or [None]; a subclass may store
    any value. *)
Record PresetOpts := mkPresetOpts {
  pre_input_mode : option string;
  pre_synchronous : option bool;
  pre_sequential : option bool;
  pre_num_rpc_threads : option PyVal;
  pre_num_main_threads : option PyVal;
  pre_input_topics : option PyVal;
  pre_output_topics : option PyVal;
  pre_kafka_endpoint : option PyVal;
  pre_consumer_timeout : option PyVal
}.

(** The attributes after [_set_execution_opts]. *)
Record ExecutionOpts := mkExecutionOpts {
  opt_input_mode : string;
  opt_synchronous : bool;
  opt_sequential : bool;
  opt_num_rpc_threads : PyVal;
  opt_num_main_threads : PyVal;
  opt_input_topics : PyVal;
  opt_output_topics : PyVal;
  opt_kafka_endpoint : PyVal;
  opt_consumer_timeout : PyVal
}.

(** [_set_execution_opts]; the result is the attributes it leaves, or the
    exception of its last line. *)
Definition _set_execution_opts (pre : PresetOpts) (input_mode : string)
    (synchronous sequential : bool) (num_rpc_threads num_main_threads : PyVal)
    (input_topics output_topics : PyVal) (kafka_endpoint : PyVal)
    (consumer_timeout : PyVal) : Result ExecutionOpts :=
  let _input_mode := default input_mode (pre_input_mode pre) in
  let synchronous := default synchronous (pre_synchronous pre) in
  let sequential := default sequential (pre_sequential pre) in
  let '(_synchronous, _sequential) :=
    if synchronous then (true, true) else (false, sequential) in
  let num_rpc_threads := default num_rpc_threads (pre_num_rpc_threads pre) in
  let num_main_threads := default num_main_threads (pre_num_main_threads pre) in
  let '(_num_main_threads, _num_rpc_threads) :=
    if synchronous || sequential then (VInt 1, VInt 1)
    else (num_main_threads, num_rpc_threads) in
  let _input_topics := default input_topics (pre_input_topics pre) in
  let _output_topics := default output_topics (pre_output_topics pre) in
  let _kafka_endpoint := default kafka_endpoint (pre_kafka_endpoint pre) in
  let _consumer_timeout := default consumer_timeout (pre_consumer_timeout pre) in
  match py_mul _consumer_timeout 1000 with
  | Ret _consumer_timeout =>
      Ret (mkExecutionOpts _input_mode _synchronous _sequential
                           _num_rpc_threads _num_main_threads _input_topics
                           _output_topics _kafka_endpoint _consumer_timeout)
  | Raise e => Raise e
  end.

(** ** Signals *)

Inductive Signal := SIGINT | SIGTERM | SIGQUIT | SIGHUP.

(** [_signal_handler]: the name is bound to [signal_name] on SIGINT and to
    [signal_mame] on SIGTERM and SIGQUIT; the message is built from
    [signal_mame]. *)
Definition _signal_handler (sig : Signal) : M unit :=
  let '(signal_name, signal_mame) :=
    match sig with
    | SIGINT => (Some "SIGINT", None)
    | SIGTERM => (None, Some "SIGINT")
    | SIGQUIT => (None, Some "SIGQUIT")
    | SIGHUP => (None, None)
    end in
  match signal_mame with
  | None => raise UnboundLocalError
  | Some name => suicide (Some ("(" +:+ name +:+ ")")) false
  end.

(** ** Periodic loops *)

(** One round of the [while] of [_loop_task].  [start_timestamp] and
    [end_timestamp] are the two readings of [utils.get_timestamp()],
    [outcome] is what the call of the target does.  The result is the time
    slept at the end of the round, if any. *)
Definition _loop_task_round (target_name : string) (interval : Q)
    (start_timestamp end_timestamp : Q) (outcome : Result unit)
    : M (option Q) :=
  try_except
    (log INFO ("new loop iteration (" +:+ target_name +:+ ")") ;;;
     _ <- lift outcome ;;
     let sleep_seconds := (interval - end_timestamp + start_timestamp)%Q in
     if Qltb 0 sleep_seconds then ret (Some sleep_seconds) else ret None)
    (log EXCEPTION ("exception raised when executing the loop: " +:+ target_name) ;;;
     ret None).

(** [_thread_target] *)
Definition _thread_target {A} (target_name : string) (target : M A) : M unit :=
  try_except
    (_ <- target ;; ret tt)
    (suicide (Some ("Exception during the execution of " +:+ dquote
                    +:+ target_name +:+ dquote)) true).

(** ** Input topics *)

Definition with_input_topics (self : Link) (l : list string) : Link :=
  mkLink (_uid self) (_consumer_group self) (_synchronous self)
         (_sequential self) (_input_mode self) l
         (_output_topics self) (_input_topic_assignments self)
         (_input_messages self) (_output_messages self) (_store self)
         (will_stop self) (journal self).

(** [x in l] on strings *)
Definition str_in (x : string) (l : list string) : bool :=
  existsb (String.eqb x) l.

(** [l.remove(x)]: the first occurrence goes. *)
Fixpoint list_remove_first (x : string) (l : list string) : list string :=
  match l with
  | [] => []
  | y :: rest => if String.eqb x y then rest else y :: list_remove_first x rest
  end.

(** [add_input_topic].  [changed] is [_changed_input_topics] before the call
    and the result is its value after; when the call raises the flag keeps
    its value. *)
Definition add_input_topic (input_topic : string) (changed : bool) : M bool :=
  self <- get ;;
  if negb (str_in input_topic (_input_topics self)) then
    (fun self => (Ret tt, with_input_topics self
                            (_input_topics self ++ [input_topic]))) ;;;
    (* under the input-topics lock *)
    when (String.eqb (_input_mode self) "exp") _set_input_topic_assignments ;;;
    let changed := true in
    log INFO ("added input " +:+ input_topic) ;;;
    ret changed
  else ret changed.

(** [remove_input_topic], with the flag as for [add_input_topic]. *)
Definition remove_input_topic (input_topic : string) (changed : bool) : M bool :=
  self <- get ;;
  if str_in input_topic (_input_topics self) then
    (fun self => (Ret tt, with_input_topics self
                            (list_remove_first input_topic (_input_topics self)))) ;;;
    (* under the input-topics lock *)
    when (String.eqb (_input_mode self) "exp") _set_input_topic_assignments ;;;
    let changed := true in
    log INFO ("removed input " +:+ input_topic) ;;;
    ret changed
  else ret changed.

(** ** The consumers, one poll at a time *)

(** What [message.error()] gives: nothing, or an error with its code (only
    [KafkaError._PARTITION_EOF] matters) and text. *)
Record KafkaErr := mkKafkaErr {
  is_partition_eof : bool;
  err_text : string
}.

(** What [consumer.poll] gives: nothing, a message, or an exception. *)
Inductive Polled :=
| PollNone
| PollMessage (m : Message) (error : option KafkaErr)
| PollRaises.

(** [not message or (not message.key() and not message.value())] *)
Definition poll_is_empty (p : Polled) : bool :=
  match p with
  | PollNone => true
  | PollMessage m _ => negb (py_truthy (msg_key m)) && negb (py_truthy (msg_value m))
  | PollRaises => false
  end.

(** The queue item of a message to commit after its transformation. *)
Definition commit_item (m : Message) : QueueItem :=
  QTuple m (VFun "_commit_kafka_message")
         (VList [VObj "consumer"; VObj "message"]).

(** One round of the [while] of [_kafka_consumer_rpc]. *)
Definition _kafka_consumer_rpc_round (subscription : list string)
    (polled : Polled) : M LoopControl :=
  self <- get ;;
  match polled with
  | PollRaises =>
      (* consumer.close() *)
      log INFO "stopped RPC input" ;;;
      suicide (Some "Kafka consumer error") true ;;;
      ret Continue
  | _ =>
      if poll_is_empty polled then
        if negb (_break_consumer_loop self subscription) then ret Continue
        else ret Break
      else
        match polled with
        | PollMessage m (Some err) =>
            when (negb (is_partition_eof err)) (log ERROR (err_text err)) ;;;
            ret Continue
        | PollMessage m None =>
            put_input (commit_item m) ;;;
            ret Continue
        | _ => ret Continue
        end
  end.

(** The subscription of the RPC consumer, [list(self._rpc_topics)];
    [class_name] is the lowered name of the class of the link. *)
Definition _rpc_topics (self : Link) (class_name : string) : list string :=
  ["catenae_rpc_" +:+ _uid self; "catenae_rpc_" +:+ class_name;
   "catenae_rpc_broadcast"].

(** One round of the slice loop of [_kafka_consumer_main], after the tests of
    the loop condition and of the changed flag.  A raising poll leaves the
    [try]: the result is [None]. *)
Definition _kafka_consumer_main_round (topic : string)
    (subscription : list string) (polled : Polled) (st : SliceState)
    : M (option (SliceState * LoopControl)) :=
  self <- get ;;
  match polled with
  | PollRaises =>
      (* consumer.close() *)
      log INFO "stopped main input" ;;;
      suicide (Some "Kafka consumer error") true ;;;
      ret None
  | _ =>
      if poll_is_empty polled then
        if negb (_break_consumer_loop self subscription)
        then ret (Some (st, Continue))
        else ret (Some (st, Break))
      else
        match polled with
        | PollMessage m (Some err) =>
            when (negb (is_partition_eof err)) (log ERROR (err_text err)) ;;;
            ret (Some (st, Continue))
        | PollMessage m None =>
            r <- consume_message topic subscription m st ;;
            ret (Some r)
        | _ => ret (Some (st, Continue))
        end
  end.

(** What the slice loop sees at the start of one round: the clock, the
    changed flag of the input topics, and what the poll gives. *)
Record Tick := mkTick {
  tick_now : Q;
  tick_changed : bool;
  tick_polled : Polled
}.

(** How a run of the slice loop over a list of rounds ends. *)
Inductive SliceEnd :=
| StillRunning        (** the rounds are used up and the loop goes on *)
| LeftLoop            (** the loop condition failed or a [break] was taken *)
| LeftTry.            (** the poll raised *)

(** The slice loop of [_kafka_consumer_main] for one topic, with the dump of
    the buffer that follows it. *)
Fixpoint slice_loop (topic : string) (subscription : list string)
    (start_time assigned_time : Q) (ticks : list Tick) (st : SliceState)
    : M (SliceState * SliceEnd) :=
  match ticks with
  | [] => ret (st, StillRunning)
  | tick :: ticks =>
      self <- get ;;
      if negb (slice_loop_condition (tick_now tick) start_time assigned_time
                                    (will_stop self)) then
        for_each (message_buffer st) (fun m => put_input (QMessage m)) ;;;
        ret (st, LeftLoop)
      else if tick_changed tick then
        for_each (message_buffer st) (fun m => put_input (QMessage m)) ;;;
        ret (st, LeftLoop)
      else
        r <- _kafka_consumer_main_round topic subscription (tick_polled tick) st ;;
        match r with
        | None => ret (st, LeftTry)
        | Some (st, Break) =>
            for_each (message_buffer st) (fun m => put_input (QMessage m)) ;;;
            ret (st, LeftLoop)
        | Some (st, Continue) =>
            slice_loop topic subscription start_time assigned_time ticks st
        end
  end.

(** The data messages among the polls of a list of rounds. *)
Fixpoint polled_messages (ticks : list Tick) : list Message :=
  match ticks with
  | [] => []
  | tick :: rest =>
      match tick_polled tick with
      | PollMessage m None =>
          if poll_is_empty (tick_polled tick) then polled_messages rest
          else m :: polled_messages rest
      | _ => polled_messages rest
      end
  end.

(** ** The dispatcher, the producer thread and the RPC client *)

Definition with_previous_topic (e : Electron) (t : option string) : Electron :=
  mkElectron (key e) (value e) (topic e) t (unpack_if_string e) (callbacks e).

(** Where [_input_handler] sends an envelope: the RPC executor runs
    [_kafka_rpc_call], the main executor runs [_transform]. *)
Inductive Dispatch :=
| ToRpcExecutor (electron : Electron)
                (commit_kafka_message_callback : Callback)
| ToMainExecutor (electron : Electron)
                 (commit_kafka_message_callback transform_callback : Callback).

(** What the HTTP request of the RPC client gives: a body, whose [result]
    field is read (or the reading raises), an [HTTPError] with its code and
    body, or another exception. *)
Inductive HttpOutcome :=
| HttpBody (result : Result PyVal)
| HttpError (code : string) (result : Result PyVal)
| HttpRaises (e : PyExc).

Section MoreLinkMethods.

(** As above, with [bytes.decode('utf-8')] and [pickle.loads] ([None] when
    they raise), [str.lower], the JSON encoding of a request and the HTTP
    exchange with a peer. *)
Variable encode_utf8 : string -> list Byte.byte.
Variable pickle_dumps : PyVal -> list Byte.byte.
Variable get_sendable : Electron -> PyVal.
Variable decode_utf8 : list Byte.byte -> option string.
Variable pickle_loads : list Byte.byte -> option PyVal.
Variable lower : string -> string.
Variable json_request :
  PyVal -> option (list (string * PyVal)) -> PyVal -> list Byte.byte.
Variable urlopen : string -> list Byte.byte -> HttpOutcome.

(** [_kafka_producer]: the [while not self._producer_thread.will_stop]
    loop, with at most one round for each entry of [faults]. *)
Fixpoint _kafka_producer_rounds (faults : list ProducerFault) : M unit :=
  match faults with
  | [] => ret tt
  | fault :: rest =>
      self <- get ;;
      if will_stop self then ret tt
      else
        _kafka_producer_step encode_utf8 pickle_dumps get_sendable fault ;;;
        _kafka_producer_rounds rest
  end.

(** The envelope decoded from the value of a message; [None] for a value
    that is neither an envelope nor bytes. *)
Definition decode_message (m : Message) : option Electron :=
  match msg_value m with
  | VElectron e => Some e
  | VBytes b =>
      match decode_utf8 b with
      | Some s => Some (Electron_new (msg_key m) (VStr s) None false)
      | None =>
          match pickle_loads b with
          | Some (VElectron e) => Some e
          | Some v => Some (Electron_new (msg_key m) v None false)
          | None => Some (Electron_new (msg_key m) (VBytes b) None false)
          end
      end
  | _ => None
  end.

(** One round of the [while] of [_input_handler] on the item taken from
    [_input_messages]; [rpc_topics] is [self._rpc_topics].  The result is the
    task submitted, if any. *)
Definition _input_handler_round (rpc_topics : list string)
    (queue_item : QueueItem) : M (option Dispatch) :=
  log DEBUG "waiting for a new electron to transform..." ;;;
  let transform_callback := Callback_new None in
  let commit_kafka_message_callback :=
    Callback_new (Some COMMIT_KAFKA_MESSAGE) in
  log DEBUG "electron received" ;;;
  let '(commit_kafka_message_callback, queue_item) :=
    match queue_item with
    | QTuple m t a =>
        let cb := with_target commit_kafka_message_callback t in
        (match a with
         | VList _ => with_args cb a
         | VDict _ => with_kwargs cb a
         | _ => cb
         end, m)
    | QMessage m => (commit_kafka_message_callback, m)
    end in
  match decode_message queue_item with
  | None =>
      log ERROR "Not supported type for {} ({})" ;;;
      ret None
  | Some electron =>
      let electron := with_previous_topic electron (Some (msg_topic queue_item)) in
      let electron := with_topic electron None in
      if str_in (msg_topic queue_item) rpc_topics then
        ret (Some (ToRpcExecutor electron commit_kafka_message_callback))
      else
        ret (Some (ToMainExecutor electron commit_kafka_message_callback
                                  transform_callback))
  end.

(** [rpc_call] *)
Definition rpc_call (fault : ProducerFault) (to : string) (method : PyVal)
    (args kwargs : PyVal) : M unit :=
  if negb (py_truthy method) then raise ValueError
  else
    self <- get ;;
    let topic := "catenae_rpc_" +:+ lower to in
    let electron :=
      Electron_new VNone
        (VDict [("method", method);
                ("context", VDict [("group", VStr (_consumer_group self));
                                   ("uid", VStr (_uid self))]);
                ("args", args);
                ("kwargs", kwargs)])
        (Some topic) false in
    send encode_utf8 pickle_dumps get_sendable fault (VElectron electron)
         None None None (Some true).

(** [_report_existence]; the three strings are [environ['JSONRPC_HOST']],
    [environ['JSONRPC_PORT']] and [environ['JSONRPC_SCHEME']]. *)
Definition _report_existence (fault : ProducerFault)
    (env_host env_port env_scheme : string) : M unit :=
  let kwargs := VDict [("host", VStr env_host); ("port", VStr env_port);
                       ("scheme", VStr env_scheme)] in
  rpc_call fault "broadcast" (VStr "add_to_store") VNone kwargs.

(** [jsonrpc_call], the RPC client. *)
Definition jsonrpc_call (uid : string) (method : PyVal)
    (kwargs : option (list (string * PyVal))) (request_id : PyVal) : M PyVal :=
  self <- get ;;
  instance_info <- lift (match by_uid (_store self) !! uid with
                         | Some i => Ret i
                         | None => Raise KeyError
                         end) ;;
  let url := info_scheme instance_info +:+ "://" +:+ info_host instance_info
             +:+ ":" +:+ info_port instance_info in
  let data := json_request method kwargs request_id in
  match urlopen url data with
  | HttpBody result => lift result
  | HttpError code result =>
      log ERROR ("HTTP error " +:+ code) ;;;
      lift result
  | HttpRaises e => raise e
  end.

End MoreLinkMethods.

(** ** Notions used to state the further properties *)

(** The topic an envelope is published to. *)
Definition topic_of (self : Link) (e : Electron) : string :=
  if str_truthy (topic e) then default "" (topic e)
  else hd "" (_output_topics self).

(** The journal of one delivered synchronous publish of [e]. *)
Definition delivery_journal (encode_utf8 : string -> list Byte.byte)
    (pickle_dumps : PyVal -> list Byte.byte) (get_sendable : Electron -> PyVal)
    (self : Link) (e : Electron) : list Event :=
  [Produce true (topic_of self e)
           (partition_key_of encode_utf8 pickle_dumps self e)
           (serialize pickle_dumps get_sendable
                      (with_topic e (Some (topic_of self e))));
   Flush; Log DEBUG "electron produced"] ++ map Execute (callbacks e).

(** The answers sent on the pipe, in order, among the events of a journal. *)
Fixpoint pipe_sends (j : list Event) : list Event :=
  match j with
  | [] => []
  | PipeSend c r :: rest => PipeSend c r :: pipe_sends rest
  | _ :: rest => pipe_sends rest
  end.

(** The value of the envelope that [rpc_call] builds. *)
Definition rpc_payload (method : PyVal) (group uid : string)
    (args kwargs : PyVal) : PyVal :=
  VDict [("method", method);
         ("context", VDict [("group", VStr group); ("uid", VStr uid)]);
         ("args", args);
         ("kwargs", kwargs)].

(** The context a handler receives: that of the caller and the topic the
    call arrived on. *)
Definition rpc_context (group uid : string) (previous_topic : option string)
    : PyVal :=
  VDict [("group", VStr group); ("uid", VStr uid);
         ("topic", opt_str previous_topic)].

(** What follows the [produce] call inside the [try] of [_produce]. *)
Definition fault_journal (fault : ProducerFault) (synchronous : bool)
    : list Event :=
  match fault with
  | NoFault =>
      [if synchronous then Flush else Poll; Log DEBUG "electron produced"]
  | ProduceRaises =>
      [Log EXCEPTION "[SUICIDE] Kafka producer error";
       Log INFO "stopping threads..."]
  | DeliveryRaises =>
      [if synchronous then Flush else Poll;
       Log EXCEPTION "[SUICIDE] Kafka producer error";
       Log INFO "stopping threads..."]
  end.

(** The envelopes that a transformation returned in a list, as the objects
    they are.  [_transform] writes into the last of them; the envelopes of
    the model carry no identity, so a statement about the others is made for
    lists that hold no envelope twice. *)
Definition returned_envelopes (electrons : PyVal) : list Electron :=
  match electrons with
  | VList items =>
      flat_map (fun item => match item with
                            | VElectron e => [e]
                            | _ => []
                            end) items
  | _ => []
  end.

(** The journal left by the outcome of a handler called over the bus. *)
Definition outcome_journal (m : string) (outcome : Result PyVal) : list Event :=
  match outcome with
  | Ret _ => []
  | Raise _ => [Log EXCEPTION ("error when invoking " +:+ m +:+ " remotely")]
  end.

(** The queue item that the main consumer builds for a message: with the
    commit of the message in synchronous mode, bare otherwise. *)
Definition slice_item (self : Link) (m : Message) : QueueItem :=
  if _synchronous self then commit_item m else QMessage m.

(** The message of a queue item, [queue_item[0]] for a tuple. *)
Definition item_message (x : QueueItem) : Message :=
  match x with
  | QMessage m => m
  | QTuple m _ _ => m
  end.

(** The budgets held for the input topics, in the order of the topics; a
    topic without budget counts 0. *)
Definition assigned_budgets (self : Link) : list Q :=
  map (fun t => default 0%Q (_input_topic_assignments self !! (inr t : Z + string)))
      (_input_topics self).

(** ** More sample data *)

(** Decoding of ASCII text; any other byte makes the decoding fail. *)
Definition sample_decode (b : list Byte.byte) : option string :=
  if forallb (fun x => (Byte.to_nat x <? 128)%nat) b
  then Some (string_of_list_byte b) else None.

Definition sample_loads (b : list Byte.byte) : option PyVal :=
  match b with
  | [Byte.x80; Byte.x4b] => Some (VInt 0)
  | _ => None
  end.

Definition sample_lower_char (c : ascii) : ascii :=
  let n := nat_of_ascii c in
  if ((65 <=? n) && (n <=? 90))%nat then ascii_of_nat (n + 32) else c.

Fixpoint sample_lower (s : string) : string :=
  match s with
  | EmptyString => EmptyString
  | String c rest => String (sample_lower_char c) (sample_lower rest)
  end.

Definition sample_json_request (method : PyVal)
    (kwargs : option (list (string * PyVal))) (request_id : PyVal)
    : list Byte.byte :=
  sample_encode (fmt method).

(** A peer that answers every request with the address it was reached at. *)
Definition sample_urlopen (url : string) (data : list Byte.byte) : HttpOutcome :=
  HttpBody (Ret (VStr url)).

Definition sample_rpc_message : Message :=
  mkMessage "catenae_rpc_broadcast" VNone (VBytes [Byte.x61]).

Definition sample_unsupported_message : Message :=
  mkMessage "hi" VNone (VInt 5).

(** * Properties *)

Ltac run :=
  unfold bind, ret, raise, get, emit, log, when, lift, try_except, suicide;
  simpl.

(** ** Journals *)

Lemma executed_app a b : executed (a ++ b) = executed a ++ executed b.
Proof. induction a as [|[] a IH]; simpl; auto. now rewrite IH. Qed.

Lemma produced_app a b : produced (a ++ b) = produced a ++ produced b.
Proof. induction a as [|[] a IH]; simpl; auto. now rewrite IH. Qed.

Lemma produced_map_execute cbs : produced (map Execute cbs) = [].
Proof. induction cbs; simpl; auto. Qed.

Lemma executed_map_execute cbs : executed (map Execute cbs) = cbs.
Proof. induction cbs; simpl; congruence. Qed.

Lemma for_each_execute cbs self :
  for_each cbs Callback_execute self =
  (Ret tt, with_journal self (journal self ++ map Execute cbs)).
Proof.
  revert self. induction cbs as [|cb cbs IH]; intros self; simpl.
  - unfold ret. rewrite app_nil_r. destruct self; reflexivity.
  - unfold bind, Callback_execute, emit at 1. rewrite IH. simpl.
    rewrite <- app_assoc. reflexivity.
Qed.

(** ** The producer *)

Section ProducerFacts.

Variable encode_utf8 : string -> list Byte.byte.
Variable pickle_dumps : PyVal -> list Byte.byte.
Variable get_sendable : Electron -> PyVal.

Local Abbreviation produce :=
  (_produce encode_utf8 pickle_dumps get_sendable).

Lemma destination_resolved e self t :
  resolves e self t -> destination_topic e self = (Ret t, self).
Proof.
  intros [[H1 H2]|[H1 [rest H2]]]; unfold destination_topic; run;
    rewrite H1; simpl; rewrite H2; reflexivity.
Qed.

(** A delivered envelope: the journal grows by the publish, the delivery
    call, the log entry and then, in synchronous mode, the callbacks. *)
Lemma _produce_delivered e sync self t :
  resolves e self t ->
  produce NoFault (VElectron e) sync self =
  (Ret tt,
   with_journal self
     (journal self ++
      [Produce (default (_synchronous self) sync) t
               (partition_key_of encode_utf8 pickle_dumps self e)
               (serialize pickle_dumps get_sendable (with_topic e (Some t)));
       if default (_synchronous self) sync then Flush else Poll;
       Log DEBUG "electron produced"] ++
      (if default (_synchronous self) sync
       then map Execute (callbacks e) else []))).
Proof.
  intros H. unfold _produce. unfold bind at 1. unfold get at 1.
  unfold bind at 1. rewrite (destination_resolved _ _ _ H).
  destruct (default (_synchronous self) sync) eqn:Hs; run.
  - rewrite for_each_execute. simpl. rewrite <- !app_assoc. reflexivity.
  - rewrite <- ?app_assoc. simpl. rewrite ?app_nil_r. reflexivity.
Qed.

(** Whatever the producer does, one [produce] call is made, on the
    resolved topic and with the chosen partition key. *)
Lemma _produce_produced fault e sync self t :
  resolves e self t ->
  produced (run_journal (produce fault (VElectron e) sync) self) =
  produced (journal self) ++
  [Produce (default (_synchronous self) sync) t
           (partition_key_of encode_utf8 pickle_dumps self e)
           (serialize pickle_dumps get_sendable (with_topic e (Some t)))].
Proof.
  intros H. unfold run_journal, _produce.
  unfold bind at 1. unfold get at 1.
  unfold bind at 1. rewrite (destination_resolved _ _ _ H).
  destruct fault, (default (_synchronous self) sync) eqn:Hs; run;
    rewrite ?for_each_execute; simpl;
    rewrite ?produced_app, ?produced_map_execute; simpl;
    rewrite ?app_nil_r; reflexivity.
Qed.

Lemma _produce_unset_no_output fault e sync self :
  str_truthy (topic e) = false -> _output_topics self = [] ->
  produce fault (VElectron e) sync self =
  (Raise IndexError,
   with_journal (with_will_stop self true)
     (journal self ++
      [Log WARN "[SUICIDE] Electron / default output topic unset";
       Log INFO "stopping threads..."])).
Proof.
  intros H1 H2. unfold _produce, destination_topic. run.
  rewrite H1, H2. simpl. rewrite <- app_assoc. reflexivity.
Qed.

(** ** [_transform] *)

Lemma list_truthy_cons {A} (x : A) l : list_truthy (x :: l) = true.
Proof. reflexivity. Qed.

Lemma for_each_put l self :
  for_each l (fun electron self =>
    (Ret tt, with_output_messages self (_output_messages self ++ [electron])))
    self =
  (Ret tt, with_output_messages self (_output_messages self ++ l)).
Proof.
  revert self. induction l as [|x l IH]; intros self; simpl.
  - unfold ret. rewrite app_nil_r. destruct self; reflexivity.
  - unfold bind. rewrite IH. simpl. rewrite <- app_assoc. reflexivity.
Qed.

Lemma set_last_callbacks_split l cbs :
  l <> [] ->
  exists first last_e,
    set_last_callbacks l cbs = first ++ [last_e] /\ callbacks last_e = cbs.
Proof.
  induction l as [|x l IH]; [congruence|]. intros _.
  destruct l as [|y l].
  - exists [], (with_callbacks x cbs). split; reflexivity.
  - destruct IH as (first & last_e & H1 & H2); [congruence|].
    exists (x :: first), last_e. split; [|exact H2].
    change (set_last_callbacks (x :: y :: l) cbs)
      with (x :: set_last_callbacks (y :: l) cbs).
    rewrite H1. reflexivity.
Qed.

(** What [_transform] leaves on the output queue when the user's
    [transform] returned something. *)
Lemma _transform_enqueues v commit tcb els tcb' self :
  returned_parts v tcb = Ret (els, tcb') ->
  as_electrons els <> [] ->
  _transform (Ret v) commit tcb self =
  (Ret tt,
   with_output_messages
     (with_journal self (journal self ++ [Log DEBUG "electron transformed"]))
     (_output_messages self ++
      set_last_callbacks (as_electrons els) (last_callbacks commit tcb'))).
Proof.
  intros H1 H2. unfold _transform. run. rewrite H1. simpl.
  destruct (as_electrons els) as [|x l] eqn:E; [congruence|].
  rewrite list_truthy_cons. rewrite for_each_put. reflexivity.
Qed.

Lemma last_callbacks_both commit tcb :
  Callback_bool commit = true -> Callback_bool tcb = true ->
  last_callbacks commit tcb = [commit; tcb].
Proof. intros H1 H2. unfold last_callbacks. rewrite H1, H2. reflexivity. Qed.

(** C1 (amended).  In synchronous mode, after an envelope is successfully
    published its callbacks execute in list order, after the publish.  The
    envelope that [_transform] gives both a commit callback and a user
    callback is the last one of the batch, its list is the commit callback
    followed by the user callback, so the commit callback is the first one
    executed and the user callback the last. *)
Theorem C1_callbacks_list_order_commit_first :
  forall v commit tcb els tcb' self0 sync,
    returned_parts v tcb = Ret (els, tcb') ->
    as_electrons els <> [] ->
    Callback_bool commit = true ->
    Callback_bool tcb' = true ->
    (forall (e : Electron) self t,
       default (_synchronous self) sync = true ->
       resolves e self t ->
       journal (snd (produce NoFault (VElectron e) sync self)) =
       journal self ++
       [Produce true t (partition_key_of encode_utf8 pickle_dumps self e)
                (serialize pickle_dumps get_sendable (with_topic e (Some t)));
        Flush; Log DEBUG "electron produced"] ++
       map Execute (callbacks e)) /\
    exists first last_e,
      _output_messages (snd (_transform (Ret v) commit tcb self0)) =
      _output_messages self0 ++ first ++ [last_e] /\
      callbacks last_e = [commit; tcb'] /\
      forall self t,
        default (_synchronous self) sync = true ->
        resolves last_e self t ->
        executed (run_journal (produce NoFault (VElectron last_e) sync) self) =
        executed (journal self) ++ [commit; tcb'].
Proof.
  intros v commit tcb els tcb' self0 sync Hparts Hne Hc Ht. split.
  - intros e self t Hs Hr. rewrite (_produce_delivered e sync self t Hr).
    rewrite Hs. reflexivity.
  - rewrite (_transform_enqueues v commit tcb els tcb' self0 Hparts Hne).
    rewrite (last_callbacks_both commit tcb' Hc Ht).
    destruct (set_last_callbacks_split (as_electrons els) [commit; tcb'] Hne)
      as (first & last_e & Hsplit & Hcbs).
    exists first, last_e. split; [|split; [exact Hcbs|]].
    { simpl. rewrite Hsplit. reflexivity. }
    intros self t Hs Hr. unfold run_journal.
    rewrite (_produce_delivered last_e sync self t Hr). rewrite Hs. simpl.
    rewrite executed_app. simpl. rewrite executed_map_execute, Hcbs.
    reflexivity.
Qed.


(** C6.  An envelope whose destination topic is unset is published to the
    first configured output topic; with no output topic configured nothing
    is published, [suicide] raises the stop flag of the link and the
    publish ends in an exception. *)
Theorem C6_default_destination :
  forall fault (e : Electron) sync self,
    str_truthy (topic e) = false ->
    (forall t rest,
       _output_topics self = t :: rest ->
       produced (run_journal (produce fault (VElectron e) sync) self) =
       produced (journal self) ++
       [Produce (default (_synchronous self) sync) t
                (partition_key_of encode_utf8 pickle_dumps self e)
                (serialize pickle_dumps get_sendable (with_topic e (Some t)))]) /\
    (_output_topics self = [] ->
     let r := produce fault (VElectron e) sync self in
     fst r = Raise IndexError /\
     will_stop (snd r) = true /\
     produced (journal (snd r)) = produced (journal self) /\
     journal (snd r) =
     journal self ++
     [Log WARN "[SUICIDE] Electron / default output topic unset";
      Log INFO "stopping threads..."]).
Proof.
  intros fault e sync self Hunset. split.
  - intros t rest Hout. apply _produce_produced. right. eauto.
  - intros Hout. cbv zeta.
    rewrite (_produce_unset_no_output fault e sync self Hunset Hout). simpl.
    repeat split. rewrite produced_app. simpl. apply app_nil_r.
Qed.

(** ** [send] *)

Lemma send_wrap_guard_true output_content :
  send_wrap_guard output_content = true.
Proof. destruct output_content; reflexivity. Qed.

(** [send] on a list: one envelope holds the whole list. *)
Lemma send_list fault (L : list PyVal) topic callback callbacks synchronous
    self :
  send encode_utf8 pickle_dumps get_sendable fault (VList L) topic callback
       callbacks synchronous self =
  (let electron :=
     mkElectron VNone (VList L) topic None true
       (match callback, callbacks with
        | Some cb, _ => [cb]
        | None, Some cbs => cbs
        | None, None => []
        end) in
   if default (_synchronous self) synchronous
   then produce fault (VElectron electron) (Some true) self
   else (Ret tt,
         with_output_messages self (_output_messages self ++ [electron]))).
Proof.
  cbv zeta.
  destruct (default (_synchronous self) synchronous) eqn:Hs;
    destruct callback, callbacks; cbn [send];
    rewrite send_wrap_guard_true; unfold bind at 1; unfold ret at 1;
    unfold bind at 1; unfold get at 1; rewrite Hs; reflexivity.
Qed.

(** C10.  For a list [L] the guard [type(output_content != list)] is true,
    as it is for every value, so the branch that sends item by item is never
    taken and [send] wraps the whole of [L] in one envelope.  In synchronous
    mode [send] makes one [produce] call, whose value is the serialized
    envelope of [L], and queues nothing; otherwise it queues that one
    envelope, and the round of the producer thread that takes it makes the
    one [produce] call. *)
Theorem C10_send_wraps_whole_list :
  forall fault fault' (L : list PyVal) topic callback callbacks synchronous
         self t,
    let electron :=
      mkElectron VNone (VList L) topic None true
        (match callback, callbacks with
         | Some cb, _ => [cb]
         | None, Some cbs => cbs
         | None, None => []
         end) in
    let sent :=
      send encode_utf8 pickle_dumps get_sendable fault (VList L) topic
           callback callbacks synchronous self in
    let published (sync_producer : bool) :=
      Produce sync_producer t
        (if _sequential self then Some (encode_utf8 (_uid self)) else None)
        (Pickled (pickle_dumps
                    (get_sendable (with_topic electron (Some t))))) in
    resolves electron self t ->
    send_wrap_guard (VList L) = true /\
    (forall output_content, send_wrap_guard output_content = true) /\
    value electron = VList L /\
    (default (_synchronous self) synchronous = true ->
     fst sent = Ret tt /\
     produced (journal (snd sent)) =
       produced (journal self) ++ [published true] /\
     _output_messages (snd sent) = _output_messages self) /\
    (default (_synchronous self) synchronous = false ->
     sent =
       (Ret tt,
        with_output_messages self (_output_messages self ++ [electron])) /\
     (_output_messages self = [] ->
      produced (run_journal
                  (_kafka_producer_step encode_utf8 pickle_dumps get_sendable
                                        fault') (snd sent)) =
      produced (journal self) ++ [published (_synchronous self)])).
Proof.
  intros fault fault' L topic callback callbacks synchronous self t electron
         sent published Hr.
  split; [reflexivity|]. split; [apply send_wrap_guard_true|].
  split; [reflexivity|].
  assert (Hpk : partition_key_of encode_utf8 pickle_dumps self electron =
                if _sequential self then Some (encode_utf8 (_uid self))
                else None) by reflexivity.
  split.
  - intros Hs. unfold sent. rewrite send_list. cbv zeta. rewrite Hs.
    fold electron.
    pose proof (_produce_produced fault electron (Some true) self t Hr) as Hp.
    unfold run_journal in Hp. rewrite Hpk in Hp.
    split; [|split; [exact Hp|]].
    + unfold _produce. unfold bind at 1. unfold get at 1.
      unfold bind at 1. rewrite (destination_resolved _ _ _ Hr).
      destruct fault; run; rewrite ?for_each_execute; reflexivity.
    + unfold _produce. unfold bind at 1. unfold get at 1.
      unfold bind at 1. rewrite (destination_resolved _ _ _ Hr).
      destruct fault; run; rewrite ?for_each_execute; reflexivity.
  - intros Hs. unfold sent. rewrite send_list. cbv zeta. rewrite Hs.
    fold electron. split; [reflexivity|].
    intros Hq. rewrite Hq. cbn [snd app].
    unfold run_journal, _kafka_producer_step.
    unfold bind at 1. unfold get at 1. cbn [_output_messages with_output_messages].
    unfold bind at 1.
    assert (Hr' : resolves electron (with_output_messages self []) t)
      by exact Hr.
    pose proof (_produce_produced fault' electron None
                  (with_output_messages self []) t Hr') as Hp.
    unfold run_journal in Hp. exact Hp.
Qed.

End ProducerFacts.

(** ** Instances on sample data *)

Lemma C1_witness :
  returned_parts (VTuple [VStr "a"; VFun "on_published"]) (Callback_new None)
    = Ret (VStr "a", user_cb) /\
  as_electrons (VStr "a") <> [] /\
  Callback_bool commit_cb = true /\
  Callback_bool user_cb = true /\
  journal (snd (_produce sample_encode sample_pickle sample_sendable NoFault
                  (VElectron (mkElectron VNone (VStr "a") None None true
                                         [commit_cb; user_cb]))
                  None sample_link)) =
  [Produce true "out" (Some (sample_encode "link-1")) (RawString "a");
   Flush; Log DEBUG "electron produced"; Execute commit_cb; Execute user_cb].
Proof.
  assert (H1 : returned_parts (VTuple [VStr "a"; VFun "on_published"])
                 (Callback_new None) = Ret (VStr "a", user_cb)) by reflexivity.
  assert (H2 : as_electrons (VStr "a") <> []) by discriminate.
  assert (H3 : Callback_bool commit_cb = true) by reflexivity.
  assert (H4 : Callback_bool user_cb = true) by reflexivity.
  split; [exact H1|]. split; [exact H2|]. split; [exact H3|].
  split; [exact H4|].
  destruct (C1_callbacks_list_order_commit_first
              sample_encode sample_pickle sample_sendable
              _ commit_cb _ _ user_cb sample_link None H1 H2 H3 H4) as [HA _].
  rewrite (HA _ sample_link "out" eq_refl).
  - reflexivity.
  - right. split; [reflexivity | exists []; reflexivity].
Defined.

(** The claim as written fails: on a batch whose last envelope carries both
    callbacks the commit callback runs first and the user callback last. *)
Lemma C1_counterexample :
  let self1 :=
    snd (_transform (Ret (VTuple [VStr "a"; VFun "on_published"]))
                    commit_cb (Callback_new None) sample_link) in
  let self2 :=
    snd (_kafka_producer_step sample_encode sample_pickle sample_sendable
                              NoFault self1) in
  executed (journal self2) = [commit_cb; user_cb] /\
  last (executed (journal self2)) = Some user_cb /\
  last (executed (journal self2)) <> Some commit_cb.
Proof. repeat split. discriminate. Qed.



Lemma C6_witness :
  str_truthy (topic (Electron_new VNone (VStr "a") None true)) = false /\
  produced (run_journal (_produce sample_encode sample_pickle sample_sendable
                           DeliveryRaises
                           (VElectron (Electron_new VNone (VStr "a") None true))
                           None) sample_link) =
  [Produce true "out" (Some (sample_encode "link-1")) (RawString "a")].
Proof.
  split; [reflexivity|].
  destruct (C6_default_destination sample_encode sample_pickle sample_sendable
              DeliveryRaises (Electron_new VNone (VStr "a") None true) None
              sample_link eq_refl) as [H _].
  apply (H "out" []). reflexivity.
Defined.

(** ** The time slice *)

(** With a clock that does not run backwards, [in_time] holds for every
    positive budget, however long ago the slice started. *)
Lemma in_time_always (now start_time assigned_time : Q) :
  (start_time <= now)%Q -> (0 < assigned_time)%Q ->
  in_time now start_time assigned_time = true.
Proof.
  intros Hle Hpos. unfold in_time, Qltb.
  destruct (Qle_bool assigned_time (start_time - now)) eqn:E; [|reflexivity].
  apply Qle_bool_iff in E. lra.
Qed.

(** C2, on the failing input.  A slice of one second that started at clock
    reading 0 ms is still in time one hour later (3600000 ms), and the slice
    loop goes on. *)
Theorem C2_in_time_after_expiry :
  in_time 3600000 0 1 = true /\
  slice_loop_condition 3600000 0 1 false = true.
Proof.
  assert (H : in_time 3600000 0 1 = true)
    by (apply in_time_always; [discriminate | reflexivity]).
  split; [exact H|]. unfold slice_loop_condition. rewrite H. reflexivity.
Qed.

(** ** Committing *)

Lemma warnings_app a b : warnings (a ++ b) = warnings a ++ warnings b.
Proof. apply List.filter_app. Qed.

(** While the loop runs [attempts] is still 0, so no round logs a
    warning. *)
Lemma commit_loop_no_warning fuel commit_ok call self :
  warnings (journal (snd (commit_loop fuel commit_ok call 0 self))) =
  warnings (journal self).
Proof.
  revert call self. induction fuel as [|fuel IH]; intros call self.
  - reflexivity.
  - simpl. run. destruct (commit_ok call); simpl.
    + rewrite warnings_app. simpl. apply app_nil_r.
    + rewrite IH. simpl. rewrite !warnings_app. simpl. rewrite !app_nil_r.
      reflexivity.
Qed.

(** The loop is left as soon as a call of [consumer.commit] returns, given
    rounds enough to reach it. *)
Lemma commit_loop_returns n commit_ok :
  forall call self fuel,
    (forall j, (j < n)%nat -> commit_ok (call + j)%nat = false) ->
    commit_ok (call + n)%nat = true ->
    (n < fuel)%nat ->
    fst (commit_loop fuel commit_ok call 0 self) = Ret (Some 1).
Proof.
  induction n as [|n IH]; intros call self fuel Hfail Hok Hfuel.
  - destruct fuel as [|fuel]; [lia|]. simpl. run.
    rewrite Nat.add_0_r in Hok. rewrite Hok. reflexivity.
  - destruct fuel as [|fuel]; [lia|]. simpl. run.
    assert (H0 : commit_ok call = false).
    { rewrite <- (Nat.add_0_r call). apply Hfail. lia. }
    rewrite H0. simpl. apply IH.
    + intros j Hj. replace (S call + j)%nat with (call + S j)%nat by lia.
      apply Hfail. lia.
    + replace (S call + n)%nat with (call + S n)%nat by lia. exact Hok.
    + lia.
Qed.

(** The loop is left only after a call of [consumer.commit] that returned. *)
Lemma commit_loop_exit_only_on_success fuel commit_ok :
  forall call attempts self a,
    fst (commit_loop fuel commit_ok call attempts self) = Ret (Some a) ->
    exists k, (call <= k)%nat /\ commit_ok k = true.
Proof.
  induction fuel as [|fuel IH]; intros call attempts self a H.
  - discriminate.
  - destruct (commit_ok call) eqn:E.
    + exists call. split; [lia | exact E].
    + simpl in H. revert H. run. rewrite E.
      destruct (1 <? attempts); simpl; intros H; apply IH in H;
        destruct H as (k & Hk & Hok); exists k; (split; [lia | exact Hok]).
Qed.

(** While every call raises, the loop goes on. *)
Lemma commit_loop_retries_unboundedly fuel commit_ok :
  forall call attempts self,
    (forall k, commit_ok k = false) ->
    fst (commit_loop fuel commit_ok call attempts self) = Ret None.
Proof.
  induction fuel as [|fuel IH]; intros call attempts self H.
  - reflexivity.
  - simpl. run. rewrite (H call). destruct (1 <? attempts); simpl;
      apply IH; exact H.
Qed.

Lemma _commit_kafka_message_no_warning fuel commit_ok self :
  warnings (run_journal (_commit_kafka_message fuel commit_ok) self) =
  warnings (journal self).
Proof.
  unfold run_journal, _commit_kafka_message. run.
  pose proof (commit_loop_no_warning fuel commit_ok O
    (with_journal self
       (journal self ++
        [Log DEBUG "trying to commit the message with value {} (attempt {})"])))
    as H.
  destruct (commit_loop fuel commit_ok O 0 _) as [[[a|]|e] self'];
    simpl in *; rewrite ?warnings_app, H, warnings_app; simpl;
    rewrite ?app_nil_r; reflexivity.
Qed.

(** C8, on the failing input.  With a consumer whose commit raises twice and
    then returns, the message is committed at the third call and the two
    retries log an exception each but no warning; and whatever the consumer
    does, committing adds no warning to the journal. *)
Theorem C8_retries_log_no_warning :
  (forall fuel commit_ok self,
     warnings (run_journal (_commit_kafka_message fuel commit_ok) self) =
     warnings (journal self)) /\
  _commit_kafka_message 10 fails_twice sample_link =
  (Ret true,
   with_journal sample_link
     [Log DEBUG "trying to commit the message with value {} (attempt {})";
      Commit;
      Log EXCEPTION "exception when trying to commit the message with value {}";
      Commit;
      Log EXCEPTION "exception when trying to commit the message with value {}";
      Commit;
      Log DEBUG "Message with value {} commited"]) /\
  warnings (run_journal (_commit_kafka_message 10 fails_twice) sample_link) = [].
Proof.
  split; [apply _commit_kafka_message_no_warning|]. split; reflexivity.
Qed.

(** ** RPC *)

Lemma _rpc_enabled_method_str registry (m : string) b :
  _rpc_enabled_method registry (VStr m) = Ret b ->
  (if bool_decide (m ∈ registry) then true else false) = b.
Proof. simpl. intros H. now injection H. Qed.

(** C7.  For a method name that is not in the registry the bus path logs at
    DEBUG and returns with no handler invoked; the direct path logs at DEBUG,
    raises the method-not-found condition and, unless the request is a
    notification, answers with error code -32601.  A registered method whose
    call raises is logged, answered with error code -32603, and nothing
    stops the link.  The round of the monitor ends as the send of the answer
    on the pipe ends. *)
Theorem C7_rpc_method_errors :
  forall registry (m : string) self,
    _rpc_enabled_method registry (VStr m) = Ret false ->
    (forall outcome (electron : Electron) commit,
       py_getitem (value electron) "method" = Ret (VStr m) ->
       _kafka_rpc_call registry outcome electron commit self =
       (Ret tt,
        with_journal self
          (journal self ++
           [Log DEBUG ("method " +:+ m +:+ " cannot be called")]))) /\
    (forall outcome kwargs,
       _jsonrpc_call registry outcome (VStr m) kwargs self =
       (Raise MethodNotFoundError,
        with_journal self
          (journal self ++
           [Log DEBUG ("method " +:+ m +:+ " cannot be called")]))) /\
    (forall outcome sent kwargs is_notification,
       _rpc_request_monitor_step registry outcome sent is_notification
                                 (VStr m) kwargs self =
       (if is_notification then Ret tt else sent,
        with_journal self
          (journal self ++
           [Log DEBUG ("method " +:+ m +:+ " cannot be called")] ++
           (if is_notification then []
            else [PipeSend (Some METHOD_NOT_FOUND) VNone])))) /\
    (forall registry' (m' : string) exc sent kwargs is_notification,
       _rpc_enabled_method registry' (VStr m') = Ret true ->
       _rpc_request_monitor_step registry' (Raise exc) sent is_notification
                                 (VStr m') kwargs self =
       (if is_notification then Ret tt else sent,
        with_journal self
          (journal self ++
           [Invoke m' [] (default [] kwargs); Log EXCEPTION ""] ++
           (if is_notification then []
            else [PipeSend (Some INTERNAL_ERROR) VNone])))) /\
    METHOD_NOT_FOUND = -32601 /\ INTERNAL_ERROR = -32603.
Proof.
  intros registry m self Hno. apply _rpc_enabled_method_str in Hno.
  split; [|split; [|split; [|split]]].
  - intros outcome electron commit Hm. unfold _kafka_rpc_call. run.
    rewrite Hm. simpl. rewrite Hno. reflexivity.
  - intros outcome kwargs. unfold _jsonrpc_call. run.
    rewrite Hno. reflexivity.
  - intros outcome sent kwargs is_notification.
    unfold _rpc_request_monitor_step, _jsonrpc_call. run.
    rewrite Hno. simpl.
    destruct is_notification; simpl.
    + reflexivity.
    + destruct sent; simpl; rewrite <- app_assoc; reflexivity.
  - intros registry' m' exc sent kwargs is_notification Hyes.
    apply _rpc_enabled_method_str in Hyes.
    unfold _rpc_request_monitor_step, _jsonrpc_call. run.
    rewrite Hyes. simpl.
    destruct is_notification; simpl; [rewrite <- ?app_assoc; reflexivity|].
    destruct sent; simpl; rewrite <- ?app_assoc; reflexivity.
  - split; reflexivity.
Qed.

(** ** The peer store *)

Lemma add_to_store_successful env_host env_port uid group host port scheme self :
  _it_is_me env_host env_port host port = false ->
  add_to_store env_host env_port true uid group host port scheme self =
  (Ret tt, with_store self
     (store_insert (_store self) uid group (mkInstanceInfo host port scheme uid group))).
Proof.
  intros H. unfold add_to_store. rewrite H. simpl. unfold store_insert.
  f_equal. f_equal. f_equal.
  destruct (by_group (_store self) !! group) as [m|] eqn:E.
  - rewrite E. reflexivity.
  - rewrite lookup_insert_eq. simpl. rewrite insert_insert_eq. reflexivity.
Qed.

Lemma add_to_store_skipped env_host env_port available uid group host port scheme self :
  _it_is_me env_host env_port host port = true \/ available = false ->
  add_to_store env_host env_port available uid group host port scheme self = (Ret tt, self).
Proof.
  intros [H|H]; unfold add_to_store; rewrite H; [reflexivity|].
  destruct (_it_is_me _ _ _ _); reflexivity.
Qed.

Lemma store_insert_symmetric s uid group info :
  store_symmetric s -> store_symmetric (store_insert s uid group info).
Proof.
  intros Hs u. unfold store_insert. simpl. split.
  - intros Hu. destruct (decide (u = uid)) as [->|Hne].
    + exists group, (<[uid:=info]> (default ∅ (by_group s !! group))).
      rewrite !lookup_insert_eq. eauto.
    + rewrite lookup_insert_ne in Hu by congruence.
      apply Hs in Hu. destruct Hu as (g & m & Hg & Hm).
      destruct (decide (g = group)) as [->|Hg'].
      * exists group, (<[uid:=info]> (default ∅ (by_group s !! group))).
        rewrite lookup_insert_eq. split; [reflexivity|].
        rewrite Hg. simpl. rewrite lookup_insert_ne by congruence. exact Hm.
      * exists g, m. rewrite lookup_insert_ne by congruence. auto.
  - intros (g & m & Hg & Hm). destruct (decide (u = uid)) as [->|Hne].
    + rewrite lookup_insert_eq. eauto.
    + rewrite lookup_insert_ne by congruence. apply Hs.
      destruct (decide (g = group)) as [->|Hg'].
      * rewrite lookup_insert_eq in Hg. injection Hg as <-.
        rewrite lookup_insert_ne in Hm by congruence.
        destruct (by_group s !! group) as [m0|] eqn:E; simpl in Hm.
        -- exists group, m0. auto.
        -- rewrite lookup_empty in Hm. destruct Hm as [? ?]. discriminate.
      * rewrite lookup_insert_ne in Hg by congruence. exists g, m. auto.
Qed.

Lemma store_insert_reachable s uid group info :
  reachable (store_insert s uid group info) group uid.
Proof.
  eexists. simpl. rewrite lookup_insert_eq. split; [reflexivity|].
  rewrite lookup_insert_eq. eauto.
Qed.

Lemma store_insert_keeps_reachable s uid group info g u :
  reachable s g u -> reachable (store_insert s uid group info) g u.
Proof.
  intros (m & Hg & Hm). unfold reachable. simpl.
  destruct (decide (g = group)) as [->|Hne].
  - eexists. rewrite lookup_insert_eq. split; [reflexivity|].
    rewrite Hg. simpl. destruct (decide (u = uid)) as [->|Hu].
    + rewrite lookup_insert_eq. eauto.
    + rewrite lookup_insert_ne by congruence. exact Hm.
  - exists m. rewrite lookup_insert_ne by congruence. auto.
Qed.

Lemma with_store_same self : with_store self (_store self) = self.
Proof. destruct self; reflexivity. Qed.

Lemma add_announce_store env_host env_port a self :
  add_announce env_host env_port a self =
  (Ret tt, with_store self (announce_store env_host env_port (_store self) a)).
Proof.
  unfold add_announce, announce_store, successful.
  destruct (_it_is_me env_host env_port (ann_host a) (ann_port a)) eqn:Hme.
  - simpl. rewrite add_to_store_skipped by auto. now rewrite with_store_same.
  - destruct (ann_available a) eqn:Hav; simpl.
    + now apply add_to_store_successful.
    + rewrite add_to_store_skipped by auto. now rewrite with_store_same.
Qed.

Lemma for_each_add_announce env_host env_port calls self :
  for_each calls (add_announce env_host env_port) self =
  (Ret tt, with_store self
             (fold_left (announce_store env_host env_port) calls (_store self))).
Proof.
  revert self. induction calls as [|a calls IH]; intros self; simpl.
  - unfold ret. now rewrite with_store_same.
  - unfold bind. rewrite add_announce_store, IH. destruct self; reflexivity.
Qed.

Lemma announce_store_symmetric env_host env_port s a :
  store_symmetric s -> store_symmetric (announce_store env_host env_port s a).
Proof.
  intros H. unfold announce_store. destruct (successful _ _ _); [|exact H].
  now apply store_insert_symmetric.
Qed.

Lemma fold_announce_symmetric env_host env_port calls s :
  store_symmetric s ->
  store_symmetric (fold_left (announce_store env_host env_port) calls s).
Proof.
  revert s. induction calls as [|a calls IH]; intros s H; simpl; [exact H|].
  apply IH. now apply announce_store_symmetric.
Qed.

Lemma fold_announce_keeps_reachable env_host env_port calls s g u :
  reachable s g u ->
  reachable (fold_left (announce_store env_host env_port) calls s) g u.
Proof.
  revert s. induction calls as [|a calls IH]; intros s H; simpl; [exact H|].
  apply IH. unfold announce_store. destruct (successful _ _ _); [|exact H].
  now apply store_insert_keeps_reachable.
Qed.

Lemma fold_announce_reachable env_host env_port calls s a :
  Forall (fun a => successful env_host env_port a = true) calls ->
  a ∈ calls ->
  reachable (fold_left (announce_store env_host env_port) calls s)
            (ann_group a) (ann_uid a).
Proof.
  revert s. induction calls as [|b calls IH]; intros s Hall Hin.
  - inversion Hin.
  - inversion Hall as [|? ? Hb Hrest]; subst. simpl.
    apply elem_of_cons in Hin as [->|Hin].
    + apply fold_announce_keeps_reachable. unfold announce_store. rewrite Hb.
      apply store_insert_reachable.
    + now apply IH.
Qed.

Lemma fold_announce_size env_host env_port calls s :
  Forall (fun a => successful env_host env_port a = true) calls ->
  NoDup (map ann_uid calls) ->
  (forall a, a ∈ calls -> by_uid s !! ann_uid a = None) ->
  size (by_uid (fold_left (announce_store env_host env_port) calls s)) =
  (size (by_uid s) + length calls)%nat.
Proof.
  revert s. induction calls as [|b calls IH]; intros s Hall Hnd Hfresh; simpl.
  - lia.
  - inversion Hall as [|? ? Hb Hrest]; subst.
    simpl in Hnd. apply NoDup_cons in Hnd as [Hnotin Hnd].
    rewrite IH; [|exact Hrest|exact Hnd|].
    + unfold announce_store. rewrite Hb. simpl.
      rewrite map_size_insert_None; [lia|]. apply Hfresh. left.
    + intros a Ha. unfold announce_store. rewrite Hb. simpl.
      rewrite lookup_insert_ne.
      * apply Hfresh. now right.
      * intros Heq. apply Hnotin. rewrite Heq.
        apply list_elem_of_fmap. exists a. auto.
Qed.

(** C9.  Every [add_to_store] call returns and keeps the symmetry of the
    store: a UID has an entry in the by-uid index exactly when it is
    reachable in the by-group index under some group.  From the empty store,
    [N] successful calls with distinct UIDs leave [N] entries in the by-uid
    index and every UID reachable under its group. *)
Theorem C9_registry_symmetry :
  forall env_host env_port (calls : list Announce) self,
    store_symmetric (_store self) ->
    let r := for_each calls (add_announce env_host env_port) self in
    fst r = Ret tt /\
    store_symmetric (_store (snd r)) /\
    (_store self = empty_store ->
     Forall (fun a => successful env_host env_port a = true) calls ->
     NoDup (map ann_uid calls) ->
     size (by_uid (_store (snd r))) = length calls /\
     forall a, a ∈ calls -> reachable (_store (snd r)) (ann_group a) (ann_uid a)).
Proof.
  intros env_host env_port calls self Hsym r. unfold r.
  rewrite for_each_add_announce. simpl.
  split; [reflexivity|]. split.
  - now apply fold_announce_symmetric.
  - intros Hempty Hall Hnd. split.
    + rewrite fold_announce_size; auto.
      * rewrite Hempty. simpl. rewrite map_size_empty. lia.
      * intros a _. rewrite Hempty. apply lookup_empty.
    + intros a Ha. now apply fold_announce_reachable.
Qed.

(** ** Penalization *)

Lemma for_each_put_input l self :
  exists q, for_each l (fun m => put_input (QMessage m)) self =
            (Ret tt, with_input_messages self q).
Proof.
  revert self. induction l as [|m l IH]; intros self; simpl.
  - exists (_input_messages self). unfold ret. destruct self; reflexivity.
  - unfold bind, put_input at 1.
    destruct (IH (with_input_messages self (LinkQueue_put (_input_messages self) (QMessage m)))) as [q Hq].
    rewrite Hq. exists q. destruct self; reflexivity.
Qed.

Lemma penalization_spec self subscription current prev :
  penalization self subscription current prev = true <->
  (_break_consumer_loop self subscription = false /\ 1 < current /\
   prev - 2 < current).
Proof.
  unfold penalization. rewrite !andb_true_iff, negb_true_iff, !Z.ltb_lt. tauto.
Qed.


Lemma consume_message_breaks self topic subscription message st :
  _synchronous self = false ->
  length subscription <> 1%nat ->
  _input_mode self <> "parity" ->
  breaks (consume_message topic subscription message st self) =
  penalization self subscription
    (Z.of_nat (length (message_buffer st)) + 1) (prev_queued_messages st).
Proof.
  intros Hs Hlen Hmode. unfold consume_message. run. rewrite Hs.
  assert (Hl : (Z.of_nat (length subscription) =? 1) = false)
    by (apply Z.eqb_neq; lia).
  assert (Hp : String.eqb (_input_mode self) "parity" = false)
    by (apply String.eqb_neq; exact Hmode).
  rewrite Hl, Hp. simpl.
  rewrite length_app. simpl.
  replace (Z.of_nat (length (message_buffer st) + 1)) with
    (Z.of_nat (length (message_buffer st)) + 1) by lia.
  unfold penalization, _break_consumer_loop. simpl.
  destruct (messages_left (_input_messages self) - 1 <? 1).
  - destruct (for_each_put_input (message_buffer st ++ [message])
      (with_input_messages self (decrement_messages_left (_input_messages self)))) as [q Hq].
    rewrite Hq. simpl.
    match goal with |- context [if ?c then _ else _] => destruct c end;
      reflexivity.
  - simpl.
    match goal with |- context [if ?c then _ else _] => destruct c end;
      reflexivity.
Qed.

(** ** Topic budgets *)

Lemma py_is_int_large i r : 256 < r -> py_is_int i r = false.
Proof.
  intros H. unfold py_is_int, py_small_int.
  destruct (Z.eqb_spec i r) as [->|]; [|reflexivity].
  simpl. apply andb_false_iff. right. apply Z.leb_gt. exact H.
Qed.

Lemma py_is_int_small r : 0 <= r <= 256 -> py_is_int r r = true.
Proof.
  intros H. unfold py_is_int, py_small_int. rewrite Z.eqb_refl. simpl.
  apply andb_true_iff. split; apply Z.leb_le; lia.
Qed.

Lemma py_is_int_ne i r : i <> r -> py_is_int i r = false.
Proof.
  intros H. unfold py_is_int. destruct (Z.eqb_spec i r); [contradiction|reflexivity].
Qed.

Lemma index_assignment_fold_snd base r l st :
  (snd (fold_left (index_assignment_step base r) l st) ==
   snd st + fold_right Qplus 0 (map (Qpower base) l))%Q.
Proof.
  revert st. induction l as [|i l IH]; intros st; simpl.
  - ring.
  - rewrite IH. simpl. ring.
Qed.

Lemma index_assignment_fold_fst_keep base r l st :
  (forall i, In i l -> py_is_int i r = false) ->
  fst (fold_left (index_assignment_step base r) l st) = fst st.
Proof.
  revert st. induction l as [|i l IH]; intros st H; simpl; [reflexivity|].
  rewrite IH by (intros; apply H; now right).
  unfold index_assignment_step. simpl. rewrite (H i) by now left. reflexivity.
Qed.

Lemma index_assignment_fold_fst_hit base r l1 l2 st :
  py_is_int r r = true ->
  (forall i, In i l2 -> py_is_int i r = false) ->
  fst (fold_left (index_assignment_step base r) (l1 ++ r :: l2) st) =
  Some (base ^ r)%Q.
Proof.
  intros Hr H. rewrite fold_left_app. simpl.
  rewrite index_assignment_fold_fst_keep by exact H.
  unfold index_assignment_step. simpl. rewrite Hr. reflexivity.
Qed.

Lemma py_range_split n r :
  0 <= r < n ->
  py_range n = py_range r ++ r :: map Z.of_nat (seq (S (Z.to_nat r)) (Z.to_nat n - Z.to_nat r - 1)).
Proof.
  intros H. unfold py_range.
  replace (Z.to_nat n) with (Z.to_nat r + S (Z.to_nat n - Z.to_nat r - 1))%nat by lia.
  rewrite seq_app, map_app. simpl. rewrite Z2Nat.id by lia.
  replace (Z.to_nat r + S (Z.to_nat n - Z.to_nat r - 1) - Z.to_nat r - 1)%nat
    with (Z.to_nat n - Z.to_nat r - 1)%nat by lia.
  reflexivity.
Qed.

Lemma _get_index_assignment_unbound window_size index elements_no base :
  256 < elements_no - index - 1 ->
  _get_index_assignment window_size index elements_no base = Raise UnboundLocalError.
Proof.
  intros H. unfold _get_index_assignment.
  rewrite index_assignment_fold_fst_keep; [reflexivity|].
  intros i _. apply py_is_int_large. exact H.
Qed.

Lemma _get_index_assignment_formula window_size index elements_no base :
  0 <= index < elements_no ->
  elements_no - index - 1 <= 256 ->
  exists q, _get_index_assignment window_size index elements_no base = Ret q /\
            (q == budget_formula window_size base elements_no index)%Q.
Proof.
  intros Hi Hs. unfold _get_index_assignment.
  set (r := elements_no - index - 1).
  rewrite (py_range_split elements_no r) by (unfold r; lia).
  rewrite index_assignment_fold_fst_hit.
  - eexists. split; [reflexivity|].
    rewrite index_assignment_fold_snd. simpl.
    rewrite <- (py_range_split elements_no r) by (unfold r; lia).
    unfold budget_formula, geometric_sum.
    replace (elements_no - 1 - index) with r by (unfold r; lia).
    rewrite Qplus_0_l. unfold Qdiv. ring.
  - apply py_is_int_small. unfold r. lia.
  - intros i Hin. apply py_is_int_ne. apply in_map_iff in Hin as (k & <- & Hk).
    apply in_seq in Hk. lia.
Qed.

Lemma Qsum_app a b : (Qsum (a ++ b) == Qsum a + Qsum b)%Q.
Proof. induction a as [|x a IH]; simpl; [ring|]. rewrite IH. ring. Qed.

Lemma Qsum_scale c (f : Z -> Q) l :
  (Qsum (map (fun i => c * f i) l) == c * Qsum (map f l))%Q.
Proof. induction l as [|x l IH]; simpl; [ring|]. rewrite IH. ring. Qed.

Lemma Qsum_ext (f g : Z -> Q) l :
  (forall i, In i l -> (f i == g i)%Q) ->
  (Qsum (map f l) == Qsum (map g l))%Q.
Proof.
  induction l as [|x l IH]; intros H; simpl; [reflexivity|].
  rewrite (H x) by now left. rewrite IH; [reflexivity|].
  intros i Hi. apply H. now right.
Qed.

Lemma Qsum_ext_nat (f g : nat -> Q) l :
  (forall i, In i l -> (f i == g i)%Q) ->
  (Qsum (map f l) == Qsum (map g l))%Q.
Proof.
  induction l as [|x l IH]; intros H; simpl; [reflexivity|].
  rewrite (H x) by now left. rewrite IH; [reflexivity|].
  intros i Hi. apply H. now right.
Qed.

(** Summing [f] over [n-1, ..., 0] or over [0, ..., n-1] is the same. *)
Lemma Qsum_reverse (f : nat -> Q) n :
  (Qsum (map (fun i => f (n - 1 - i)%nat) (seq 0 n)) == Qsum (map f (seq 0 n)))%Q.
Proof.
  induction n as [|n IH]; [reflexivity|].
  assert (L : (Qsum (map (fun i => f (S n - 1 - i)%nat) (seq 0 (S n))) ==
               f n + Qsum (map (fun i => f (n - 1 - i)%nat) (seq 0 n)))%Q).
  { cbn [seq map Qsum fold_right]. rewrite <- seq_shift, map_map.
    replace (S n - 1 - 0)%nat with n by lia.
    apply Qplus_comp; [reflexivity|].
    apply Qsum_ext_nat. intros i _.
    replace (S n - 1 - S i)%nat with (n - 1 - i)%nat by lia. reflexivity. }
  assert (R : (Qsum (map f (seq 0 (S n))) == Qsum (map f (seq 0 n)) + f n)%Q).
  { rewrite seq_S, map_app, Qsum_app. simpl. ring. }
  rewrite L, R, IH. ring.
Qed.

Lemma geometric_sum_pos base n :
  (0 < base)%Q -> 1 <= n -> (0 < geometric_sum base n)%Q.
Proof.
  intros Hb Hn. unfold geometric_sum, py_range.
  destruct (Z.to_nat n) as [|k] eqn:E; [lia|].
  simpl. assert (H0 : (0 <= fold_right Qplus 0 (map (Qpower base) (map Z.of_nat (seq 1 k))))%Q).
  { generalize (seq 1 k). intros l. induction l as [|x l IH]; simpl; [lra|].
    pose proof (Qpower_0_lt base (Z.of_nat x) Hb). lra. }
  pose proof (Qpower_0_lt base 0 Hb). simpl in H. lra.
Qed.

Lemma geometric_sum_reverse base n :
  (Qsum (map (fun i => base ^ (n - 1 - i)) (py_range n)) == geometric_sum base n)%Q.
Proof.
  unfold geometric_sum, py_range. fold (Qsum (map (Qpower base) (map Z.of_nat (seq 0 (Z.to_nat n))))).
  rewrite !map_map.
  rewrite <- (Qsum_reverse (fun k => base ^ Z.of_nat k) (Z.to_nat n))%Q.
  apply Qsum_ext_nat. intros k Hk. apply in_seq in Hk.
  replace (n - 1 - Z.of_nat k) with (Z.of_nat (Z.to_nat n - 1 - k)) by lia.
  reflexivity.
Qed.

Lemma budgets_sum window_size base n :
  (0 < base)%Q -> 1 <= n ->
  (Qsum (map (budget_formula window_size base n) (py_range n)) == window_size)%Q.
Proof.
  intros Hb Hn. unfold budget_formula.
  rewrite (Qsum_ext _ (fun i => (window_size / geometric_sum base n) * base ^ (n - 1 - i))%Q).
  - rewrite Qsum_scale, geometric_sum_reverse.
    pose proof (geometric_sum_pos base n Hb Hn). field. lra.
  - intros i _. pose proof (geometric_sum_pos base n Hb Hn). field. lra.
Qed.

Lemma budget_first_largest window_size base n index :
  (0 <= window_size)%Q -> (1 <= base)%Q -> 0 <= index < n ->
  (budget_formula window_size base n index <= budget_formula window_size base n 0)%Q.
Proof.
  intros Hw Hb Hi. unfold budget_formula.
  assert (Hpos : (0 < geometric_sum base n)%Q) by (apply geometric_sum_pos; [lra|lia]).
  unfold Qdiv. apply Qmult_le_compat_r.
  - rewrite !(Qmult_comm window_size). apply Qmult_le_compat_r; [|exact Hw].
    apply Qpower_le_compat_l; [lia|exact Hb].
  - apply Qlt_le_weak, Qinv_lt_0_compat, Hpos.
Qed.

Lemma py_enumerate_cons {A} (x : A) l :
  exists rest, py_enumerate (x :: l) = (0, x) :: rest.
Proof.
  unfold py_enumerate, py_range. rewrite Nat2Z.id. simpl. eauto.
Qed.

Lemma _set_input_topic_assignments_unbound self :
  _input_mode self = "exp" ->
  (258 <= length (_input_topics self))%nat ->
  fst (_set_input_topic_assignments self) = Raise UnboundLocalError.
Proof.
  intros Hm Hlen. unfold _set_input_topic_assignments. run. rewrite Hm. simpl.
  destruct (_input_topics self) as [|t rest] eqn:E; [simpl in Hlen; lia|].
  simpl.
  destruct (py_enumerate_cons t rest) as [more Hen]. rewrite Hen.
  cbn [for_each]. unfold bind, assign_topic, lift.
  destruct (Nat.eqb (String.length t) 1); simpl;
    rewrite _get_index_assignment_unbound; try reflexivity; simpl in Hlen; lia.
Qed.

Lemma assign_topic_step n i t q self :
  _get_index_assignment 900 i n base_default = Ret q ->
  assign_topic 900 n (i, t) self = (Ret tt, assigned self t q).
Proof. intros H. unfold assign_topic, bind, lift. rewrite H. reflexivity. Qed.

Lemma for_each_assign n (l : list (Z * string)) :
  (forall i t, In (i, t) l -> 0 <= i < n /\ n - i - 1 <= 256) ->
  NoDup (map snd l) ->
  forall self,
    fst (for_each l (assign_topic 900 n) self) = Ret tt /\
    (forall i t, In (i, t) l ->
       exists q,
         _input_topic_assignments (snd (for_each l (assign_topic 900 n) self))
           !! (inr t : Z + string) = Some q /\
         (q == budget_formula 900 base_default n i)%Q) /\
    (forall k : Z + string, (forall t, k = inr t -> ~ In t (map snd l)) ->
       _input_topic_assignments (snd (for_each l (assign_topic 900 n) self)) !! k =
       _input_topic_assignments self !! k).
Proof.
  induction l as [|[i t] l IH]; intros Hrange Hnd self.
  - split; [reflexivity|]. split; [intros ? ? []|reflexivity].
  - destruct (Hrange i t (or_introl eq_refl)) as [Hi Hs].
    destruct (_get_index_assignment_formula 900 i n base_default Hi Hs)
      as (q & Hq & Hqe).
    simpl in Hnd. apply NoDup_cons in Hnd as [Hnotin Hnd].
    cbn [for_each]. unfold bind. rewrite (assign_topic_step n i t q self Hq).
    destruct (IH (fun i' t' H => Hrange i' t' (or_intror H)) Hnd
                 (assigned self t q)) as (H1 & H2 & H3).
    split; [exact H1|]. split.
    + intros i' t' [Heq|Hin].
      * injection Heq as <- <-. exists q. split; [|exact Hqe].
        rewrite H3.
        -- simpl. apply lookup_insert_eq.
        -- intros t0 Heq. injection Heq as <-. intros Hin. apply Hnotin.
           apply list_elem_of_In. exact Hin.
      * apply H2. exact Hin.
    + intros k Hk. rewrite H3.
      * simpl. apply lookup_insert_ne. intros <-.
        apply (Hk t eq_refl). now left.
      * intros t0 -> Hin. apply (Hk t0 eq_refl). now right.
Qed.

Lemma combine_seq_snd {A} (l : list A) a :
  map snd (combine (map Z.of_nat (seq a (length l))) l) = l.
Proof.
  revert a. induction l as [|x l IH]; intros a; simpl; [reflexivity|].
  now rewrite IH.
Qed.

Lemma combine_seq_In {A} (l : list A) a i x :
  In (i, x) (combine (map Z.of_nat (seq a (length l))) l) <->
  exists k, i = Z.of_nat (a + k) /\ l !! k = Some x.
Proof.
  revert a. induction l as [|y l IH]; intros a; simpl.
  - split; [intros []|intros (k & _ & H); discriminate].
  - rewrite IH. split.
    + intros [Heq|(k & -> & Hk)].
      * injection Heq as <- <-. exists 0%nat. split; [f_equal; lia|reflexivity].
      * exists (S k). split; [f_equal; lia|exact Hk].
    + intros ([|k] & -> & Hk).
      * left. simpl in Hk. injection Hk as <-. do 2 f_equal. lia.
      * right. exists k. split; [f_equal; lia|exact Hk].
Qed.

Lemma py_enumerate_In {A} (l : list A) i x :
  In (i, x) (py_enumerate l) <-> exists k, i = Z.of_nat k /\ l !! k = Some x.
Proof.
  unfold py_enumerate, py_range. rewrite Nat2Z.id. apply combine_seq_In.
Qed.

Lemma py_enumerate_snd {A} (l : list A) : map snd (py_enumerate l) = l.
Proof.
  unfold py_enumerate, py_range. rewrite Nat2Z.id. apply combine_seq_snd.
Qed.

Lemma _set_input_topic_assignments_exp self :
  _input_mode self = "exp" ->
  (1 <= length (_input_topics self) <= 257)%nat ->
  NoDup (_input_topics self) ->
  fst (_set_input_topic_assignments self) = Ret tt /\
  forall k t,
    _input_topics self !! k = Some t ->
    exists q,
      _input_topic_assignments (snd (_set_input_topic_assignments self))
        !! (inr t : Z + string) = Some q /\
      (q == budget_formula 900 base_default
              (Z.of_nat (length (_input_topics self))) (Z.of_nat k))%Q.
Proof.
  intros Hm Hlen Hnd. unfold _set_input_topic_assignments. run. rewrite Hm.
  simpl. destruct (_input_topics self) as [|t0 rest] eqn:E; [simpl in Hlen; lia|].
  rewrite <- E in *. simpl.
  set (n := Z.of_nat (length (_input_topics self))).
  assert (Hrange : forall i t, In (i, t) (py_enumerate (_input_topics self)) ->
                               0 <= i < n /\ n - i - 1 <= 256).
  { intros i t Hin. apply py_enumerate_In in Hin as (k & -> & Hk).
    apply lookup_lt_Some in Hk. unfold n. lia. }
  assert (Hnd' : NoDup (map snd (py_enumerate (_input_topics self))))
    by (rewrite py_enumerate_snd; exact Hnd).
  destruct (Nat.eqb (String.length t0) 1); simpl.
  - match goal with |- context [for_each _ _ ?s] =>
      destruct (for_each_assign n _ Hrange Hnd' s) as (H1 & H2 & _) end.
    split; [exact H1|]. intros k t Hk. apply H2. apply py_enumerate_In. eauto.
  - match goal with |- context [for_each _ _ ?s] =>
      destruct (for_each_assign n _ Hrange Hnd' s) as (H1 & H2 & _) end.
    split; [exact H1|]. intros k t Hk. apply H2. apply py_enumerate_In. eauto.
Qed.

(** C3, on the failing input.  With 258 input topics, all distinct, the
    budget of the first topic is never bound: the loop of
    [_get_index_assignment] compares the indices with [is], which fails on
    257, and the function ends in [UnboundLocalError]; so does
    [_set_input_topic_assignments].  (Up to 257 distinct topics the budgets
    follow the formula, sum to the window and the first is the largest:
    [_set_input_topic_assignments_exp], [budgets_sum],
    [budget_first_largest].) *)
Theorem C3_budget_unbound_beyond_257_topics :
  _get_index_assignment 900 0 258 base_default = Raise UnboundLocalError /\
  length (_input_topics sample_link_258) = 258%nat /\
  NoDup (_input_topics sample_link_258) /\
  fst (_set_input_topic_assignments sample_link_258) = Raise UnboundLocalError.
Proof.
  split; [apply _get_index_assignment_unbound; lia|].
  split; [reflexivity|]. split.
  - apply (bool_decide_unpack (NoDup _)). vm_compute. exact I.
  - apply _set_input_topic_assignments_unbound; [reflexivity|].
    vm_compute. lia.
Qed.

(** ** Penalization, the claim *)




(** ** Further instances on sample data *)

Lemma C7_witness :
  _rpc_enabled_method sample_registry (VStr "does_not_exist") = Ret false /\
  _rpc_request_monitor_step sample_registry (Ret VNone) (Ret tt) false
                            (VStr "does_not_exist") None sample_link =
  (Ret tt,
   with_journal sample_link
     [Log DEBUG "method does_not_exist cannot be called";
      PipeSend (Some (-32601)) VNone]).
Proof.
  assert (H : _rpc_enabled_method sample_registry (VStr "does_not_exist")
              = Ret false) by (vm_compute; reflexivity).
  split; [exact H|].
  destruct (C7_rpc_method_errors sample_registry "does_not_exist"
              sample_link H) as (_ & _ & Hmon & _).
  rewrite (Hmon (Ret VNone) (Ret tt) None false). reflexivity.
Defined.

Lemma empty_store_symmetric : store_symmetric empty_store.
Proof.
  intros uid. simpl. rewrite lookup_empty. split.
  - intros [? ?]. discriminate.
  - intros (g & m & Hg & _). rewrite lookup_empty in Hg. discriminate.
Qed.

Lemma C9_witness :
  store_symmetric (_store sample_link) /\
  store_symmetric
    (_store (snd (for_each sample_announces (add_announce "10.0.0.1" "9494")
                           sample_link))) /\
  size (by_uid (_store (snd (for_each sample_announces
                                      (add_announce "10.0.0.1" "9494")
                                      sample_link)))) = 3%nat.
Proof.
  split; [exact empty_store_symmetric|].
  destruct (C9_registry_symmetry "10.0.0.1" "9494" sample_announces sample_link
              empty_store_symmetric) as (_ & Hsym & Hsize).
  split; [exact Hsym|].
  destruct Hsize as [Hn _].
  - reflexivity.
  - repeat constructor.
  - apply (bool_decide_unpack (NoDup _)). vm_compute. exact I.
  - exact Hn.
Defined.

Lemma C10_witness :
  let electron :=
    mkElectron VNone (VList [VInt 1; VInt 2]) None None true [] in
  resolves electron sample_link "out" /\
  produced (journal (snd (
    send sample_encode sample_pickle sample_sendable NoFault
         (VList [VInt 1; VInt 2]) None None None None sample_link))) =
  [Produce true "out" (Some (sample_encode "link-1"))
     (Pickled (sample_pickle (VList [VInt 1; VInt 2])))].
Proof.
  cbv zeta.
  assert (H : resolves
                (mkElectron VNone (VList [VInt 1; VInt 2]) None None true [])
                sample_link "out").
  { right. split; [reflexivity | exists []; reflexivity]. }
  split; [exact H|].
  destruct (C10_send_wraps_whole_list sample_encode sample_pickle
              sample_sendable NoFault NoFault [VInt 1; VInt 2] None None None
              None sample_link "out" H) as (_ & _ & _ & Hsync & _).
  destruct (Hsync eq_refl) as (_ & Hp & _).
  exact Hp.
Defined.

(** * Further properties *)

(** ** The transformation and the producer *)

Section PipelineFacts.

Variable encode_utf8 : string -> list Byte.byte.
Variable pickle_dumps : PyVal -> list Byte.byte.
Variable get_sendable : Electron -> PyVal.
Variable lower : string -> string.

Lemma resolves_topic_of (e : Electron) self :
  _output_topics self <> [] -> resolves e self (topic_of self e).
Proof.
  intros Hout. unfold resolves, topic_of.
  destruct (str_truthy (topic e)) eqn:Ht.
  - left. split; [reflexivity|]. destruct (topic e); [reflexivity|discriminate].
  - right. split; [reflexivity|].
    destruct (_output_topics self) as [|t rest]; [congruence|]. eauto.
Qed.

(** The producer thread empties the queue in order; each envelope is
    published, then its callbacks run. *)
Lemma _kafka_producer_rounds_journal l :
  forall self,
    _output_messages self = l ->
    _synchronous self = true ->
    will_stop self = false ->
    _output_topics self <> [] ->
    _kafka_producer_rounds encode_utf8 pickle_dumps get_sendable
                           (repeat NoFault (length l)) self =
    (Ret tt,
     with_journal (with_output_messages self [])
       (journal self ++
        concat (map (delivery_journal encode_utf8 pickle_dumps get_sendable self) l))).
Proof.
  induction l as [|e l IH]; intros self Hq Hs Hw Hout.
  - simpl. unfold ret. rewrite app_nil_r. rewrite <- Hq.
    destruct self; reflexivity.
  - cbn [length repeat _kafka_producer_rounds].
    unfold bind at 1. unfold get at 1. rewrite Hw.
    unfold bind at 1. unfold _kafka_producer_step.
    unfold bind at 1. unfold get at 1. rewrite Hq.
    unfold bind at 1.
    rewrite (_produce_delivered encode_utf8 pickle_dumps get_sendable e None
               (with_output_messages self l)
               (topic_of (with_output_messages self l) e)
               (resolves_topic_of e _ Hout)).
    rewrite IH; [|reflexivity|exact Hs|exact Hw|exact Hout].
    simpl. rewrite Hs. unfold delivery_journal at 2.
    rewrite <- !app_assoc. destruct self; reflexivity.
Qed.

Lemma set_last_callbacks_length l cbs :
  length (set_last_callbacks l cbs) = length l.
Proof.
  induction l as [|x l IH]; [reflexivity|]. destruct l as [|y l]; [reflexivity|].
  change (set_last_callbacks (x :: y :: l) cbs)
    with (x :: set_last_callbacks (y :: l) cbs).
  change (length (x :: set_last_callbacks (y :: l) cbs))
    with (S (length (set_last_callbacks (y :: l) cbs))).
  rewrite IH. reflexivity.
Qed.

Lemma produced_delivery_journals self l :
  length (produced (concat (map (delivery_journal encode_utf8 pickle_dumps
                                                  get_sendable self) l))) =
  length l.
Proof.
  induction l as [|e l IH]; [reflexivity|].
  cbn [map concat]. rewrite produced_app, length_app, IH.
  unfold delivery_journal. rewrite produced_app, produced_map_execute.
  reflexivity.
Qed.

Lemma as_electrons_nil els :
  as_electrons els = [] <-> els = VNone \/ els = VList [].
Proof.
  split.
  - destruct els as [| | | | |items| | | | | |]; try discriminate; auto.
    destruct items; [auto|discriminate].
  - intros [->| ->]; reflexivity.
Qed.

(** X2.  A transformation that returns nothing ([None] or an empty list,
    alone or as the first part of a tuple) queues nothing for the producer;
    the source message is committed at once, in synchronous mode and when a
    commit callback was given, and not at all otherwise. *)
Theorem transform_nothing_returned :
  forall v commit tcb els tcb' self,
    returned_parts v tcb = Ret (els, tcb') ->
    (els = VNone \/ els = VList []) ->
    _transform (Ret v) commit tcb self =
    (Ret tt,
     with_journal self
       (journal self ++ [Log DEBUG "electron transformed"] ++
        (if _synchronous self && Callback_bool commit
         then [Execute commit] else []))).
Proof.
  intros v commit tcb els tcb' self Hparts Hnil.
  apply as_electrons_nil in Hnil.
  unfold _transform. run. rewrite Hparts. simpl. rewrite Hnil. simpl.
  destruct (_synchronous self && Callback_bool commit);
    destruct self; unfold Callback_execute, emit; simpl;
    rewrite <- ?app_assoc; reflexivity.
Qed.

(** X3.  When the user transformation raises, the stop flag of the link is
    raised, no envelope is queued, no callback runs (the source message is
    not committed) and [_transform] itself ends in [UnboundLocalError]: the
    result of the transformation is read although it was never bound. *)
Theorem transform_raises :
  forall e commit tcb self,
    let r := _transform (Raise e) commit tcb self in
    fst r = Raise UnboundLocalError /\
    will_stop (snd r) = true /\
    _output_messages (snd r) = _output_messages self /\
    executed (journal (snd r)) = executed (journal self).
Proof.
  intros e commit tcb self. unfold _transform. run.
  repeat split. rewrite <- !app_assoc, executed_app. simpl. apply app_nil_r.
Qed.

(** The whole of [_produce] on an envelope whose destination resolves. *)
Lemma _produce_result fault (e : Electron) sync self t :
  resolves e self t ->
  _produce encode_utf8 pickle_dumps get_sendable fault (VElectron e) sync self =
  (Ret tt,
   with_journal
     (match fault with NoFault => self | _ => with_will_stop self true end)
     (journal self ++
      [Produce (default (_synchronous self) sync) t
               (partition_key_of encode_utf8 pickle_dumps self e)
               (serialize pickle_dumps get_sendable (with_topic e (Some t)))] ++
      fault_journal fault (default (_synchronous self) sync) ++
      (if default (_synchronous self) sync
       then map Execute (callbacks e) else []))).
Proof.
  intros Hr. unfold _produce.
  unfold bind at 1. unfold get at 1.
  unfold bind at 1. rewrite (destination_resolved e self t Hr).
  destruct fault, (default (_synchronous self) sync) eqn:Hs; run;
    rewrite ?for_each_execute; destruct self; simpl;
    rewrite <- ?app_assoc; simpl; rewrite ?app_nil_r; reflexivity.
Qed.

Lemma journal_with_journal self j : journal (with_journal self j) = j.
Proof. reflexivity. Qed.

Lemma will_stop_with_journal self j :
  will_stop (with_journal self j) = will_stop self.
Proof. reflexivity. Qed.

Lemma produced_fault_journal fault s : produced (fault_journal fault s) = [].
Proof. destruct fault, s; reflexivity. Qed.

Lemma executed_fault_journal fault s : executed (fault_journal fault s) = [].
Proof. destruct fault, s; reflexivity. Qed.

(** X4.  An asynchronous publish makes its [produce] call and runs none of
    the callbacks of the envelope, whatever the producer does; a producer
    failure raises the stop flag and [_produce] still returns. *)
Theorem produce_async_runs_no_callback :
  forall fault (e : Electron) sync self t,
    default (_synchronous self) sync = false ->
    resolves e self t ->
    let r := _produce encode_utf8 pickle_dumps get_sendable fault
                      (VElectron e) sync self in
    fst r = Ret tt /\
    executed (journal (snd r)) = executed (journal self) /\
    produced (journal (snd r)) =
    produced (journal self) ++
    [Produce false t (partition_key_of encode_utf8 pickle_dumps self e)
             (serialize pickle_dumps get_sendable (with_topic e (Some t)))] /\
    will_stop (snd r) =
    match fault with NoFault => will_stop self | _ => true end.
Proof.
  intros fault e sync self t Hs Hr r. unfold r.
  rewrite (_produce_result fault e sync self t Hr), Hs. cbn [fst snd].
  rewrite journal_with_journal, will_stop_with_journal.
  rewrite !executed_app, !produced_app, executed_fault_journal,
    produced_fault_journal. simpl. rewrite !app_nil_r.
  repeat split. destruct fault; reflexivity.
Qed.

(** X5.  A synchronous publish that fails (the [produce] call or the flush
    raises) raises the stop flag and then still runs every callback of the
    envelope, the commit of the source message included. *)
Theorem produce_failed_still_runs_callbacks :
  forall fault (e : Electron) sync self t,
    fault <> NoFault ->
    default (_synchronous self) sync = true ->
    resolves e self t ->
    let r := _produce encode_utf8 pickle_dumps get_sendable fault
                      (VElectron e) sync self in
    fst r = Ret tt /\
    will_stop (snd r) = true /\
    produced (journal (snd r)) =
    produced (journal self) ++
    [Produce true t (partition_key_of encode_utf8 pickle_dumps self e)
             (serialize pickle_dumps get_sendable (with_topic e (Some t)))] /\
    executed (journal (snd r)) = executed (journal self) ++ callbacks e.
Proof.
  intros fault e sync self t Hf Hs Hr r. unfold r.
  rewrite (_produce_result fault e sync self t Hr), Hs. cbn [fst snd].
  rewrite journal_with_journal, will_stop_with_journal.
  rewrite !executed_app, !produced_app, executed_fault_journal,
    produced_fault_journal, executed_map_execute, produced_map_execute.
  simpl. rewrite ?app_nil_r.
  repeat split. destruct fault; [congruence|reflexivity|reflexivity].
Qed.

Lemma set_last_callbacks_snoc (first : list Electron) last_e cbs :
  set_last_callbacks (first ++ [last_e]) cbs =
  first ++ [with_callbacks last_e cbs].
Proof.
  induction first as [|x first IH]; [reflexivity|].
  destruct first as [|y first].
  - reflexivity.
  - change (set_last_callbacks ((x :: y :: first) ++ [last_e]) cbs)
      with (x :: set_last_callbacks ((y :: first) ++ [last_e]) cbs).
    rewrite IH. reflexivity.
Qed.

(** The transformation, then the producer thread on the queue it filled. *)
Lemma transform_then_publish v commit tcb els tcb' self :
  returned_parts v tcb = Ret (els, tcb') ->
  as_electrons els <> [] ->
  _synchronous self = true ->
  will_stop self = false ->
  _output_messages self = [] ->
  _output_topics self <> [] ->
  _kafka_producer_rounds encode_utf8 pickle_dumps get_sendable
    (repeat NoFault (length (as_electrons els)))
    (snd (_transform (Ret v) commit tcb self)) =
  (Ret tt,
   with_journal
     (with_output_messages
        (with_journal self (journal self ++ [Log DEBUG "electron transformed"]))
        [])
     ((journal self ++ [Log DEBUG "electron transformed"]) ++
      concat (map (delivery_journal encode_utf8 pickle_dumps get_sendable self)
                  (set_last_callbacks (as_electrons els)
                     (last_callbacks commit tcb'))))).
Proof.
  intros Hparts Hne Hs Hw Hq Hout.
  rewrite (_transform_enqueues v commit tcb els tcb' self Hparts Hne).
  cbn [snd]. rewrite Hq. cbn [app].
  set (l := set_last_callbacks (as_electrons els) (last_callbacks commit tcb')).
  rewrite <- (set_last_callbacks_length (as_electrons els)
                (last_callbacks commit tcb')). fold l.
  rewrite (_kafka_producer_rounds_journal l);
    [|reflexivity|exact Hs|exact Hw|exact Hout].
  destruct self; reflexivity.
Qed.

(** X1.  Transformation and producer thread together, on a running link in
    synchronous mode.  When the transformation returns at least one
    envelope, no envelope twice, and every publish is delivered, the
    producer thread empties the queue; the journal shows, for each envelope
    in turn, its [produce] call, the flush and then the callbacks that the
    envelope came with; the last envelope has lost its own callbacks, and
    the callbacks of the batch (the commit of the source message first, then
    the callback of the transformation) are the last events of all. *)
Theorem commit_after_publish :
  forall v commit tcb els tcb' self,
    returned_parts v tcb = Ret (els, tcb') ->
    as_electrons els <> [] ->
    NoDup (returned_envelopes els) ->
    _synchronous self = true ->
    will_stop self = false ->
    _output_messages self = [] ->
    _output_topics self <> [] ->
    let r :=
      _kafka_producer_rounds encode_utf8 pickle_dumps get_sendable
        (repeat NoFault (length (as_electrons els)))
        (snd (_transform (Ret v) commit tcb self)) in
    fst r = Ret tt /\
    _output_messages (snd r) = [] /\
    exists first last_e,
      as_electrons els = first ++ [last_e] /\
      journal (snd r) =
      journal self ++ [Log DEBUG "electron transformed"] ++
      concat (map (delivery_journal encode_utf8 pickle_dumps get_sendable self)
                  first) ++
      [Produce true (topic_of self last_e)
               (partition_key_of encode_utf8 pickle_dumps self last_e)
               (serialize pickle_dumps get_sendable
                  (with_topic
                     (with_callbacks last_e (last_callbacks commit tcb'))
                     (Some (topic_of self last_e))));
       Flush; Log DEBUG "electron produced"] ++
      map Execute (last_callbacks commit tcb').
Proof.
  intros v commit tcb els tcb' self Hparts Hne _ Hs Hw Hq Hout r. unfold r.
  rewrite (transform_then_publish v commit tcb els tcb' self Hparts Hne Hs Hw
             Hq Hout).
  cbn [fst snd]. split; [reflexivity|]. split; [reflexivity|].
  destruct (exists_last Hne) as (first & last_e & Hl).
  exists first, last_e. split; [exact Hl|].
  rewrite journal_with_journal, Hl, set_last_callbacks_snoc.
  rewrite map_app, concat_app. cbn [map concat]. rewrite app_nil_r.
  unfold delivery_journal at 2.
  rewrite <- !app_assoc. reflexivity.
Qed.

Lemma send_value fault (v : PyVal) topic callback callbacks synchronous self :
  py_type v <> TElectron ->
  send encode_utf8 pickle_dumps get_sendable fault v topic callback callbacks
       synchronous self =
  let electron :=
    mkElectron VNone v topic None true
      (match callback, callbacks with
       | Some cb, _ => [cb]
       | None, Some cbs => cbs
       | None, None => []
       end) in
  if default (_synchronous self) synchronous
  then _produce encode_utf8 pickle_dumps get_sendable fault
                (VElectron electron) (Some true) self
  else (Ret tt, with_output_messages self (_output_messages self ++ [electron])).
Proof.
  intros Hty. cbv zeta.
  destruct v; try (exfalso; apply Hty; reflexivity);
    destruct (default (_synchronous self) synchronous) eqn:Hs;
    destruct callback, callbacks; cbn [send];
    rewrite ?send_wrap_guard_true; unfold bind at 1; unfold ret at 1;
    unfold bind at 1; unfold get at 1; rewrite Hs; reflexivity.
Qed.

(** X6.  [send] of a text in synchronous mode publishes the text itself,
    not a serialized envelope, with no key of its own: the partition key is
    the UID of the link in sequential mode and null otherwise. *)
Theorem send_text_is_published_raw :
  forall fault (s : string) topic callback callbacks self t,
    resolves (Electron_new VNone (VStr s) topic true) self t ->
    produced (run_journal
                (send encode_utf8 pickle_dumps get_sendable fault (VStr s)
                      topic callback callbacks (Some true)) self) =
    produced (journal self) ++
    [Produce true t
       (if _sequential self then Some (encode_utf8 (_uid self)) else None)
       (RawString s)].
Proof.
  intros fault s topic callback callbacks self t Hr. unfold run_journal.
  rewrite send_value by discriminate. cbv zeta.
  change (default (_synchronous self) (Some true)) with true. cbv iota.
  rewrite (_produce_result fault _
             (Some true) self t).
  - change (default (_synchronous self) (Some true)) with true.
    cbn [snd]. rewrite journal_with_journal.
    rewrite !produced_app, produced_fault_journal.
    rewrite produced_map_execute. simpl. rewrite ?app_nil_r. reflexivity.
  - exact Hr.
Qed.

(** X7.  Transformation and producer thread together, on a running link in
    synchronous mode: a text returned in a list is published raw on the
    first output topic, and the callbacks of the batch run after the publish
    and the flush. *)
Theorem transform_text_in_list_published_raw :
  forall (s : string) commit tcb self t rest,
    _synchronous self = true ->
    will_stop self = false ->
    _output_messages self = [] ->
    _output_topics self = t :: rest ->
    let r :=
      _kafka_producer_rounds encode_utf8 pickle_dumps get_sendable [NoFault]
        (snd (_transform (Ret (VList [VStr s])) commit tcb self)) in
    fst r = Ret tt /\
    journal (snd r) =
    journal self ++
    [Log DEBUG "electron transformed";
     Produce true t
       (if _sequential self then Some (encode_utf8 (_uid self)) else None)
       (RawString s);
     Flush; Log DEBUG "electron produced"] ++
    map Execute (last_callbacks commit tcb).
Proof.
  intros s commit tcb self t rest Hs Hw Hq Hout r.
  assert (Hne : _output_topics self <> []) by (rewrite Hout; discriminate).
  unfold r.
  change [NoFault]
    with (repeat NoFault (length (as_electrons (VList [VStr s])))).
  rewrite (transform_then_publish (VList [VStr s]) commit tcb (VList [VStr s])
             tcb self eq_refl ltac:(discriminate) Hs Hw Hq Hne).
  cbn [fst snd]. split; [reflexivity|].
  rewrite journal_with_journal.
  cbn [as_electrons set_last_callbacks map concat]. rewrite app_nil_r.
  unfold delivery_journal, topic_of. simpl. rewrite Hout.
  rewrite <- !app_assoc. reflexivity.
Qed.

Lemma rpc_call_produce fault to method args kwargs self :
  py_truthy method = true ->
  rpc_call encode_utf8 pickle_dumps get_sendable lower fault to method args
           kwargs self =
  _produce encode_utf8 pickle_dumps get_sendable fault
    (VElectron
       (mkElectron VNone
          (rpc_payload method (_consumer_group self) (_uid self) args kwargs)
          (Some ("catenae_rpc_" +:+ lower to)) None false []))
    (Some true) self.
Proof.
  intros Hm. unfold rpc_call. rewrite Hm. cbn [negb].
  unfold bind at 1. unfold get at 1. cbn [send].
  unfold bind at 1. unfold ret at 1. unfold bind at 1. unfold get at 1.
  reflexivity.
Qed.

(** X8.  [rpc_call] without a method raises [ValueError] and does nothing.
    With a method it makes one synchronous [produce] call on the topic
    [catenae_rpc_] followed by the lowered recipient, whatever the mode of
    the link; the value carries the method, the group and UID of the caller
    and the arguments; nothing is queued and no callback runs. *)
Theorem rpc_call_publishes_synchronously :
  forall fault to method args kwargs self,
    let electron :=
      mkElectron VNone
        (rpc_payload method (_consumer_group self) (_uid self) args kwargs)
        (Some ("catenae_rpc_" +:+ lower to)) None false [] in
    let r := rpc_call encode_utf8 pickle_dumps get_sendable lower fault to
                      method args kwargs self in
    (py_truthy method = false -> r = (Raise ValueError, self)) /\
    (py_truthy method = true ->
     fst r = Ret tt /\
     produced (journal (snd r)) =
     produced (journal self) ++
     [Produce true ("catenae_rpc_" +:+ lower to)
        (if _sequential self then Some (encode_utf8 (_uid self)) else None)
        (Pickled (pickle_dumps (get_sendable electron)))] /\
     executed (journal (snd r)) = executed (journal self) /\
     _output_messages (snd r) = _output_messages self).
Proof.
  intros fault to method args kwargs self electron r. split.
  - intros Hm. unfold r, rpc_call. rewrite Hm. reflexivity.
  - intros Hm. unfold r. rewrite (rpc_call_produce _ _ _ _ _ _ Hm).
    rewrite (_produce_result fault _
               (Some true) self ("catenae_rpc_" +:+ lower to)).
    + change (default (_synchronous self) (Some true)) with true.
      cbn [fst snd]. rewrite journal_with_journal.
      rewrite !produced_app, !executed_app, produced_fault_journal,
        executed_fault_journal. simpl. rewrite ?app_nil_r.
      repeat split. destruct fault; reflexivity.
    + left. split; reflexivity.
Qed.

End PipelineFacts.

(** ** Remote calls *)

Lemma filter_fresh_key (d : list (string * PyVal)) k :
  py_contains (VDict d) k = false ->
  List.filter (fun kv => negb (String.eqb (fst kv) k)) d = d.
Proof.
  induction d as [|kv d IH]; intros H; [reflexivity|].
  change (py_contains (VDict (kv :: d)) k)
    with (String.eqb k (fst kv) || py_contains (VDict d) k) in H.
  apply orb_false_elim in H as [Hk Hd].
  cbn [List.filter]. rewrite String.eqb_sym, Hk. cbn [negb]. now rewrite IH.
Qed.

(** X9.  A bus call of a registered method invokes the handler once, with
    the context of the caller extended by the topic the call arrived on: as
    the keyword [context] when keyword arguments were sent, as the first
    positional argument otherwise.  A handler that raises is logged and
    nothing else happens; the source message is committed afterwards in
    synchronous mode only. *)
Theorem bus_rpc_invokes_with_context :
  forall registry outcome (m group uid : string) args kwargs previous_topic
         commit self,
    _rpc_enabled_method registry (VStr m) = Ret true ->
    let electron :=
      mkElectron VNone (rpc_payload (VStr m) group uid args kwargs) None
                 previous_topic false [] in
    let context := rpc_context group uid previous_topic in
    let after (invoke : Event) :=
      (Ret tt,
       with_journal self
         (journal self ++
          [Log DEBUG ("RPC invocation from " +:+ uid +:+ " (" +:+ group +:+ ")");
           invoke] ++
          outcome_journal m outcome ++
          (if _synchronous self then [Execute commit] else []))) in
    (forall d, kwargs = VDict d -> d <> [] ->
       py_contains (VDict d) "context" = false ->
       _kafka_rpc_call registry outcome electron commit self =
       after (Invoke m [] (d ++ [("context", context)]))) /\
    (forall l, kwargs = VNone -> args = VList l ->
       _kafka_rpc_call registry outcome electron commit self =
       after (Invoke m (context :: l) [])) /\
    (kwargs = VNone -> args = VNone ->
       _kafka_rpc_call registry outcome electron commit self =
       after (Invoke m [context] [])).
Proof.
  intros registry outcome m group uid args kwargs previous_topic commit self
         Hreg electron context after.
  apply _rpc_enabled_method_str in Hreg. split; [|split].
  - intros d -> Hd Hfresh. unfold after, _kafka_rpc_call. run. rewrite Hreg.
    simpl. destruct d as [|kv d]; [congruence|].
    change (py_contains (VDict (kv :: d)) "context")
      with (String.eqb "context" (fst kv) || py_contains (VDict d) "context")
      in Hfresh.
    apply orb_false_elim in Hfresh as [Hk Hfresh].
    rewrite String.eqb_sym in Hk. simpl. rewrite Hk. simpl.
    rewrite (filter_fresh_key d "context" Hfresh).
    destruct outcome; destruct self as [? ? sy ? ? ? ? ? ? ? ? ? ?];
      destruct sy; simpl; unfold Callback_execute, emit; simpl;
      rewrite <- ?app_assoc; reflexivity.
  - intros l -> ->. unfold after, _kafka_rpc_call. run. rewrite Hreg. simpl.
    destruct l as [|x l]; simpl;
    destruct outcome; destruct self as [? ? sy ? ? ? ? ? ? ? ? ? ?];
      destruct sy; simpl; unfold Callback_execute, emit; simpl;
      rewrite <- ?app_assoc; reflexivity.
  - intros -> ->. unfold after, _kafka_rpc_call. run. rewrite Hreg. simpl.
    destruct outcome; destruct self as [? ? sy ? ? ? ? ? ? ? ? ? ?];
      destruct sy; simpl; unfold Callback_execute, emit; simpl;
      rewrite <- ?app_assoc; reflexivity.
Qed.

Lemma pipe_sends_app a b : pipe_sends (a ++ b) = pipe_sends a ++ pipe_sends b.
Proof.
  induction a as [|x a IH]; [reflexivity|].
  destruct x; simpl; rewrite ?IH; reflexivity.
Qed.

(** X10.  One round of the monitor of direct RPC on a request whose method
    is a string ends as the send of the answer on the pipe ends (it returns
    for a notification) and never stops the link; a request that is not a
    notification gets exactly one answer (the result, or one of the two
    error codes) and a notification gets none.  On a method that cannot be
    hashed the round ends in [TypeError], which the monitor does not catch,
    and no answer is sent. *)
Theorem direct_rpc_answers_once :
  forall registry outcome sent is_notification kwargs self,
    (forall m : string,
       let r := _rpc_request_monitor_step registry outcome sent
                                          is_notification (VStr m) kwargs
                                          self in
       fst r = (if is_notification then Ret tt else sent) /\
       will_stop (snd r) = will_stop self /\
       pipe_sends (journal (snd r)) =
       pipe_sends (journal self) ++
       (if is_notification then []
        else [if bool_decide (m ∈ registry)
              then match outcome with
                   | Ret result => PipeSend None result
                   | Raise _ => PipeSend (Some INTERNAL_ERROR) VNone
                   end
              else PipeSend (Some METHOD_NOT_FOUND) VNone])) /\
    (forall method,
       py_hashable method = false ->
       _rpc_request_monitor_step registry outcome sent is_notification
                                 method kwargs self =
       (Raise TypeError, self)).
Proof.
  intros registry outcome sent is_notification kwargs self. split.
  - intros m r. unfold r, _rpc_request_monitor_step, _jsonrpc_call. run.
    destruct (bool_decide (m ∈ registry)), outcome, is_notification, sent;
      simpl; rewrite <- ?app_assoc, ?pipe_sends_app; simpl;
      rewrite ?app_nil_r; repeat split.
  - intros method Hh.
    assert (He : _rpc_enabled_method registry method = Raise TypeError).
    { destruct method; try discriminate; unfold _rpc_enabled_method;
        rewrite Hh; reflexivity. }
    unfold _rpc_request_monitor_step, _jsonrpc_call. run. rewrite He.
    reflexivity.
Qed.

(** ** The store and the RPC client *)

(** X11.  The store never forgets: a peer that announces itself under a
    second group is recorded under that group in the by-uid index and in the
    by-group index, and stays listed, with its old record, under the first
    group. *)
Theorem reannounce_keeps_old_group :
  forall env_host env_port uid g1 g2 host port scheme self,
    _it_is_me env_host env_port host port = false ->
    g1 <> g2 ->
    let r :=
      (add_to_store env_host env_port true uid g1 host port scheme ;;;
       add_to_store env_host env_port true uid g2 host port scheme) self in
    fst r = Ret tt /\
    by_uid (_store (snd r)) !! uid =
      Some (mkInstanceInfo host port scheme uid g2) /\
    (exists members,
       by_group (_store (snd r)) !! g1 = Some members /\
       members !! uid = Some (mkInstanceInfo host port scheme uid g1)) /\
    (exists members,
       by_group (_store (snd r)) !! g2 = Some members /\
       members !! uid = Some (mkInstanceInfo host port scheme uid g2)).
Proof.
  intros env_host env_port uid g1 g2 host port scheme self Hme Hne r.
  unfold r, bind. rewrite add_to_store_successful by exact Hme.
  rewrite add_to_store_successful by exact Hme.
  cbn [fst snd]. split; [reflexivity|]. simpl. split; [|split].
  - apply lookup_insert_eq.
  - eexists. rewrite lookup_insert_ne by congruence.
    rewrite lookup_insert_eq. split; [reflexivity|]. apply lookup_insert_eq.
  - eexists. rewrite lookup_insert_eq. split; [reflexivity|].
    apply lookup_insert_eq.
Qed.

Section RpcClientFacts.

Variable json_request :
  PyVal -> option (list (string * PyVal)) -> PyVal -> list Byte.byte.
Variable urlopen : string -> list Byte.byte -> HttpOutcome.

(** X12.  After a peer has been added to the store, a direct call to its UID
    goes to [scheme://host:port] as announced and returns what the peer
    answers, also when the answer came with an HTTP error, without stopping
    the link; a UID that is not in the store ends in [KeyError] before any
    request is made. *)
Theorem jsonrpc_call_uses_announced_address :
  forall env_host env_port uid group host port scheme method kwargs
         request_id self,
    _it_is_me env_host env_port host port = false ->
    let self' :=
      snd (add_to_store env_host env_port true uid group host port scheme
                        self) in
    let answer :=
      urlopen (scheme +:+ "://" +:+ host +:+ ":" +:+ port)
              (json_request method kwargs request_id) in
    fst (jsonrpc_call json_request urlopen uid method kwargs request_id self') =
      match answer with
      | HttpBody result => result
      | HttpError _ result => result
      | HttpRaises e => Raise e
      end /\
    will_stop
      (snd (jsonrpc_call json_request urlopen uid method kwargs request_id
                         self')) = will_stop self /\
    (by_uid (_store self) !! uid = None ->
     jsonrpc_call json_request urlopen uid method kwargs request_id self =
     (Raise KeyError, self)).
Proof.
  intros env_host env_port uid group host port scheme method kwargs
         request_id self Hme self' answer.
  unfold self', answer. rewrite add_to_store_successful by exact Hme.
  cbn [snd]. unfold jsonrpc_call.
  split; [|split].
  - run. rewrite lookup_insert_eq. simpl.
    destruct (urlopen _ _) as [res|code res|e]; run; try destruct res;
      reflexivity.
  - run. rewrite lookup_insert_eq. simpl.
    destruct (urlopen _ _) as [res|code res|e]; run; try destruct res;
      reflexivity.
  - intros Hnone. run. rewrite Hnone. reflexivity.
Qed.

End RpcClientFacts.

(** ** The consumers *)

(** X13.  On a poll that brings nothing the RPC consumer, which subscribes
    to three topics, leaves its loop for good unless the link is in parity
    mode; the state of the link is untouched. *)
Theorem rpc_consumer_empty_poll :
  forall self class_name polled,
    poll_is_empty polled = true ->
    _kafka_consumer_rpc_round (_rpc_topics self class_name) polled self =
    (Ret (if String.eqb (_input_mode self) "parity" then Continue else Break),
     self).
Proof.
  intros self class_name polled He. unfold _kafka_consumer_rpc_round. run.
  destruct polled as [|m err|]; try discriminate; rewrite ?He;
    unfold _break_consumer_loop; simpl;
    destruct (String.eqb (_input_mode self) "parity"); reflexivity.
Qed.

Lemma slice_loop_exp_round :
  forall topic start_time assigned_time tick ticks st self,
    _input_mode self = "exp" ->
    will_stop self = false ->
    (0 < assigned_time)%Q ->
    (start_time <= tick_now tick)%Q ->
    tick_changed tick = false ->
    tick_polled tick <> PollRaises ->
    exists self',
      slice_loop topic [topic] start_time assigned_time (tick :: ticks) st self =
      slice_loop topic [topic] start_time assigned_time ticks st self' /\
      _input_mode self' = "exp" /\ will_stop self' = false /\
      _synchronous self' = _synchronous self /\
      items (_input_messages self') =
      items (_input_messages self) ++ map (slice_item self) (polled_messages [tick]).
Proof.
  intros topic start_time assigned_time tick ticks st self Hm Hw Hpos Hnow Hch Hpoll.
  assert (Hbr : _break_consumer_loop self [topic] = false) by reflexivity.
  assert (E :
             slice_loop topic [topic] start_time assigned_time (tick :: ticks) st self =
             (r <- _kafka_consumer_main_round topic [topic] (tick_polled tick) st ;;
              match r with
              | None => ret (st, LeftTry)
              | Some (st, Break) =>
                  for_each (message_buffer st) (fun m => put_input (QMessage m)) ;;;
                  ret (st, LeftLoop)
              | Some (st, Continue) =>
                  slice_loop topic [topic] start_time assigned_time ticks st
              end) self).
  { cbn [slice_loop]. unfold bind at 1. unfold get at 1.
    unfold slice_loop_condition.
    rewrite (in_time_always _ _ _ Hnow Hpos), orb_true_r, Hw. cbn [negb andb].
    rewrite Hch. reflexivity. }
  rewrite E. clear E.
  cbn [polled_messages map].
  destruct (tick_polled tick) as [|m err|] eqn:Hp; [| |congruence].
  - exists self. rewrite app_nil_r. repeat split; auto.
  - unfold _kafka_consumer_main_round.
    destruct (poll_is_empty (PollMessage m err)) eqn:He.
    + exists self. cbv [bind get]. rewrite ?He, Hbr.
      destruct err; simpl; rewrite app_nil_r; repeat split; auto.
    + destruct err as [err|].
      * destruct (is_partition_eof err) eqn:Heof.
        -- exists self. cbv [bind get]. rewrite ?He, ?Heof. simpl. rewrite app_nil_r.
           repeat split; auto.
        -- exists (with_journal self (journal self ++ [Log ERROR (err_text err)])).
           cbv [bind get]. rewrite ?He, ?Heof. simpl. rewrite app_nil_r.
           repeat split; auto.
      * exists (with_input_messages self
                  (LinkQueue_put (_input_messages self) (slice_item self m))).
        unfold consume_message, slice_item. cbv [bind get]. rewrite ?He.
        destruct (_synchronous self) eqn:Hs; simpl; repeat split; auto.
Qed.

(** X14.  In exp mode a slice never ends by itself: while the clock does
    not run backwards, the input topics do not change and no poll raises,
    the slice loop is still running after any number of rounds, however much
    time has passed, and the data messages polled have been queued in order
    (with their commit in synchronous mode). *)
Theorem exp_slice_never_ends :
  forall topic start_time assigned_time ticks st self,
    _input_mode self = "exp" ->
    will_stop self = false ->
    (0 < assigned_time)%Q ->
    Forall (fun tick => (start_time <= tick_now tick)%Q /\
                        tick_changed tick = false /\
                        tick_polled tick <> PollRaises) ticks ->
    fst (slice_loop topic [topic] start_time assigned_time ticks st self) =
      Ret (st, StillRunning) /\
    items (_input_messages
             (snd (slice_loop topic [topic] start_time assigned_time ticks st self))) =
    items (_input_messages self) ++ map (slice_item self) (polled_messages ticks) /\
    will_stop (snd (slice_loop topic [topic] start_time assigned_time ticks st self)) =
      false.
Proof.
  intros topic start_time assigned_time ticks st.
  induction ticks as [|tick ticks IH]; intros self Hm Hw Hpos Hall.
  - simpl. rewrite app_nil_r. auto.
  - inversion Hall as [|? ? (Hnow & Hch & Hpoll) Hrest]; subst.
    destruct (slice_loop_exp_round topic start_time assigned_time tick ticks st self
                Hm Hw Hpos Hnow Hch Hpoll) as (self' & E & Hm' & Hw' & Hs' & Hq).
    rewrite E.
    destruct (IH self' Hm' Hw' Hpos Hrest) as (H1 & H2 & H3).
    split; [exact H1|]. split; [|exact H3].
    rewrite H2, Hq.
    assert (Hsi : slice_item self' = slice_item self)
      by (unfold slice_item; rewrite Hs'; reflexivity).
    rewrite Hsi, <- app_assoc, <- map_app.
    f_equal. f_equal.
    cbn [polled_messages].
    destruct (tick_polled tick) as [|m [e|]|]; try reflexivity.
    destruct (poll_is_empty (PollMessage m None)); reflexivity.
Qed.

(** X15.  In no mode does a message of a slice make the consumer leave the
    slice: the message is queued directly (with its commit in synchronous
    mode) and the loop goes on with the local buffer untouched, or the mode
    is unknown and the consumer fails. *)
Theorem penalization_never_fires :
  forall topic message st self,
    breaks (slice_message topic message st self) = false /\
    (forall st' c, fst (slice_message topic message st self) = Ret (st', c) ->
       st' = st /\ c = Continue /\
       items (_input_messages (snd (slice_message topic message st self))) =
       items (_input_messages self) ++ [slice_item self message]).
Proof.
  intros topic message st self.
  assert (E : slice_message topic message st self =
              if String.eqb (_input_mode self) "exp"
                 || String.eqb (_input_mode self) "parity"
              then (Ret (st, Continue),
                    with_input_messages self
                      (LinkQueue_put (_input_messages self)
                                     (slice_item self message)))
              else (Raise UnboundLocalError,
                    with_journal (with_will_stop self true)
                      (journal self ++
                       [Log WARN "[SUICIDE] Unknown priority mode";
                        Log INFO "stopping threads..."]))).
  { unfold slice_message, subscription_for, consume_message, slice_item,
      commit_item.
    destruct self as [u g sy sq im it ot ia q om sto ws j]. run.
    destruct (String.eqb im "exp") eqn:He; simpl.
    - destruct sy; reflexivity.
    - destruct (String.eqb im "parity") eqn:Hp; simpl.
      + destruct sy; simpl; [reflexivity|].
        rewrite Hp, orb_true_r. reflexivity.
      + rewrite <- app_assoc. reflexivity. }
  rewrite E. unfold breaks.
  destruct (String.eqb (_input_mode self) "exp"
            || String.eqb (_input_mode self) "parity"); simpl.
  - split; [reflexivity|]. intros st' c H. injection H as <- <-. auto.
  - split; [reflexivity|]. intros st' c H. discriminate.
Qed.

(** ** The dispatcher *)

Lemma str_in_In x l : str_in x l = true <-> In x l.
Proof.
  unfold str_in. rewrite existsb_exists. split.
  - intros (y & Hin & He). apply String.eqb_eq in He. now subst.
  - intros Hin. exists x. split; [exact Hin|apply String.eqb_refl].
Qed.

Section DispatcherFacts.

Variable decode_utf8 : list Byte.byte -> option string.
Variable pickle_loads : list Byte.byte -> option PyVal.
Variable lower : string -> string.

Lemma _input_handler_round_consumed rpc_topics (m : Message) (e : Electron)
    self :
  decode_message decode_utf8 pickle_loads m = Some e ->
  fst (_input_handler_round decode_utf8 pickle_loads rpc_topics
                            (slice_item self m) self) =
  Ret (Some
    (let e' := mkElectron (key e) (value e) None (Some (msg_topic m))
                          (unpack_if_string e) (callbacks e) in
     let cb :=
       if _synchronous self
       then mkCallback (VFun "_commit_kafka_message")
                       (VList [VObj "consumer"; VObj "message"]) VNone
                       (Some COMMIT_KAFKA_MESSAGE)
       else Callback_new (Some COMMIT_KAFKA_MESSAGE) in
     if str_in (msg_topic m) rpc_topics
     then ToRpcExecutor e' cb
     else ToMainExecutor e' cb (Callback_new None))).
Proof.
  intros Hd. unfold slice_item, commit_item.
  destruct (_synchronous self) eqn:Hs; unfold _input_handler_round; run;
    rewrite Hd; simpl; destruct (str_in (msg_topic m) rpc_topics);
    reflexivity.
Qed.

(** X16.  The dispatcher on an item built by the main consumer: the envelope
    decoded from the message loses its destination, remembers the topic it
    arrived on, and goes to the RPC executor exactly when that topic is an
    RPC topic.  Its commit callback has a target exactly in synchronous
    mode, where it is the commit of the message. *)
Theorem dispatch_of_consumed :
  forall rpc_topics (m : Message) (e : Electron) self,
    decode_message decode_utf8 pickle_loads m = Some e ->
    exists cb,
      fst (_input_handler_round decode_utf8 pickle_loads rpc_topics
                                (slice_item self m) self) =
      Ret (Some
        (let e' := mkElectron (key e) (value e) None (Some (msg_topic m))
                              (unpack_if_string e) (callbacks e) in
         if str_in (msg_topic m) rpc_topics
         then ToRpcExecutor e' cb
         else ToMainExecutor e' cb (Callback_new None))) /\
      Callback_bool cb = _synchronous self /\
      (_synchronous self = true ->
       cb = mkCallback (VFun "_commit_kafka_message")
                       (VList [VObj "consumer"; VObj "message"]) VNone
                       (Some COMMIT_KAFKA_MESSAGE)).
Proof.
  intros rpc_topics m e self Hd.
  rewrite (_input_handler_round_consumed rpc_topics m e self Hd). cbv zeta.
  eexists. split; [reflexivity|].
  destruct (_synchronous self); split; try reflexivity; discriminate.
Qed.

(** X17.  A message whose value is neither an envelope nor bytes is dropped
    by the dispatcher: nothing is submitted, nothing is queued, no callback
    runs (the message is not committed) and the link goes on. *)
Theorem dispatch_drops_unsupported :
  forall rpc_topics item self,
    decode_message decode_utf8 pickle_loads (item_message item) = None ->
    let r := _input_handler_round decode_utf8 pickle_loads rpc_topics item self in
    fst r = Ret None /\
    executed (journal (snd r)) = executed (journal self) /\
    _output_messages (snd r) = _output_messages self /\
    will_stop (snd r) = will_stop self.
Proof.
  intros rpc_topics item self Hd. unfold _input_handler_round.
  destruct item as [m|m t a]; simpl in Hd; run.
  - rewrite Hd. simpl. rewrite <- !app_assoc, executed_app. simpl.
    rewrite app_nil_r. auto.
  - destruct a; rewrite Hd; simpl; rewrite <- !app_assoc, executed_app; simpl;
      rewrite app_nil_r; auto.
Qed.

Lemma rpc_topic_inj a b : "catenae_rpc_" +:+ a = "catenae_rpc_" +:+ b -> a = b.
Proof. intros H. simpl in H. now repeat injection H as H. Qed.

Lemma str_in_rpc_topics x self class_name :
  str_in ("catenae_rpc_" +:+ x) (_rpc_topics self class_name) = true <->
  (x = _uid self \/ x = class_name \/ x = "broadcast").
Proof.
  rewrite str_in_In. unfold _rpc_topics. simpl. split.
  - intros [H|[H|[H|[]]]].
    + left. symmetry. now apply rpc_topic_inj.
    + right. left. symmetry. now apply rpc_topic_inj.
    + right. right. symmetry. now apply (rpc_topic_inj "broadcast" x).
  - intros [->|[->| ->]]; auto.
Qed.

(** X18.  A message on the topic that [rpc_call] builds for a recipient is
    handled as a bus call by a link exactly when the lowered recipient is the
    UID of the link, the lowered name of its class or [broadcast]. *)
Theorem rpc_call_reaches_rpc_executor :
  forall to class_name (m : Message) (e : Electron) self,
    msg_topic m = "catenae_rpc_" +:+ lower to ->
    decode_message decode_utf8 pickle_loads m = Some e ->
    (exists e' cb,
       fst (_input_handler_round decode_utf8 pickle_loads
              (_rpc_topics self class_name) (slice_item self m) self) =
       Ret (Some (ToRpcExecutor e' cb))) <->
    (lower to = _uid self \/ lower to = class_name \/ lower to = "broadcast").
Proof.
  intros to class_name m e self Ht Hd.
  rewrite (_input_handler_round_consumed (_rpc_topics self class_name) m e
             self Hd).
  cbv zeta. rewrite Ht, <- str_in_rpc_topics.
  destruct (str_in ("catenae_rpc_" +:+ lower to) (_rpc_topics self class_name)).
  - split; [reflexivity|]. intros _. eauto.
  - split; [|discriminate]. intros (e' & cb' & H). discriminate.
Qed.

End DispatcherFacts.

(** ** Changes of the input topics *)

Lemma str_in_app_last x l : str_in x (l ++ [x]) = true.
Proof. apply str_in_In, in_or_app. right. now left. Qed.

Lemma list_remove_first_app_last x l :
  str_in x l = false -> list_remove_first x (l ++ [x]) = l.
Proof.
  induction l as [|y l IH]; intros H; simpl.
  - now rewrite String.eqb_refl.
  - simpl in H. apply orb_false_elim in H as [Hxy Hl].
    unfold str_in in IH. rewrite Hxy, (IH Hl). reflexivity.
Qed.

Lemma for_each_assign_topics w n (l : list (Z * string)) self :
  _input_topics (snd (for_each l (assign_topic w n) self)) = _input_topics self.
Proof.
  revert self. induction l as [|[i t] l IH]; intros self; [reflexivity|].
  cbn [for_each]. unfold bind at 1, assign_topic, bind, lift.
  destruct (_get_index_assignment w i n base_default); [|reflexivity].
  simpl. rewrite IH. reflexivity.
Qed.

Lemma _set_input_topic_assignments_topics self :
  _input_topics (snd (_set_input_topic_assignments self)) = _input_topics self.
Proof.
  unfold _set_input_topic_assignments. run.
  destruct (String.eqb (_input_mode self) "parity"); [reflexivity|].
  destruct (String.eqb (_input_mode self) "exp"); [|reflexivity].
  simpl. destruct (_input_topics self) as [|t rest] eqn:E; [simpl; now rewrite E|].
  simpl. destruct (Nat.eqb (String.length t) 1); simpl.
  - match goal with |- context [for_each ?l ?f ?s] =>
      destruct (for_each l f s) as [[|] s'] eqn:Ef;
      pose proof (for_each_assign_topics 900
                    (Z.of_nat (S (length rest))) l s) as Hp end;
    rewrite Ef in Hp; simpl in *; rewrite Hp, E; reflexivity.
  - match goal with |- context [for_each ?l ?f ?s] =>
      destruct (for_each l f s) as [[|] s'] eqn:Ef;
      pose proof (for_each_assign_topics 900
                    (Z.of_nat (S (length rest))) l s) as Hp end;
    rewrite Ef in Hp; simpl in *; rewrite Hp, E; reflexivity.
Qed.

Lemma add_input_topic_topics t changed self :
  _input_topics (snd (add_input_topic t changed self)) =
  if str_in t (_input_topics self) then _input_topics self
  else _input_topics self ++ [t].
Proof.
  unfold add_input_topic. unfold bind at 1. unfold get at 1.
  destruct (str_in t (_input_topics self)); [reflexivity|]. cbn [negb].
  unfold bind at 1. unfold bind at 1. unfold when.
  destruct (String.eqb (_input_mode self) "exp").
  - pose proof (_set_input_topic_assignments_topics
                  (with_input_topics self (_input_topics self ++ [t]))) as Hp.
    destruct (_set_input_topic_assignments _) as [[[]|e] s'];
      simpl in Hp; simpl; exact Hp.
  - reflexivity.
Qed.

Lemma remove_input_topic_topics t changed self :
  _input_topics (snd (remove_input_topic t changed self)) =
  if str_in t (_input_topics self)
  then list_remove_first t (_input_topics self)
  else _input_topics self.
Proof.
  unfold remove_input_topic. unfold bind at 1. unfold get at 1.
  destruct (str_in t (_input_topics self)); [|reflexivity].
  unfold bind at 1. unfold bind at 1. unfold when.
  destruct (String.eqb (_input_mode self) "exp").
  - pose proof (_set_input_topic_assignments_topics
                  (with_input_topics self
                     (list_remove_first t (_input_topics self)))) as Hp.
    destruct (_set_input_topic_assignments _) as [[[]|e] s'];
      simpl in Hp; simpl; exact Hp.
  - reflexivity.
Qed.

(** X19.  Adding a new input topic appends it, adding it again changes
    nothing, and removing it restores the list of input topics, in every
    mode and whether or not the budgets could be computed. *)
Theorem add_then_remove_restores_topics :
  forall t changed changed' self,
    str_in t (_input_topics self) = false ->
    _input_topics (snd (add_input_topic t changed self)) =
      _input_topics self ++ [t] /\
    _input_topics
      (snd (remove_input_topic t changed'
              (snd (add_input_topic t changed self)))) =
      _input_topics self /\
    add_input_topic t changed' (snd (add_input_topic t changed self)) =
      (Ret changed', snd (add_input_topic t changed self)).
Proof.
  intros t changed changed' self Hno.
  pose proof (add_input_topic_topics t changed self) as Ha.
  rewrite Hno in Ha. split; [exact Ha|]. split.
  - rewrite remove_input_topic_topics, Ha, str_in_app_last.
    apply list_remove_first_app_last, Hno.
  - unfold add_input_topic at 1. unfold bind at 1. unfold get at 1.
    rewrite Ha, str_in_app_last. reflexivity.
Qed.

(** X20.  In exp mode, adding a new topic to fewer than 257 distinct topics
    returns with the changed flag set and gives every topic, the new one
    included, the budget of its new position. *)
Theorem add_input_topic_exp :
  forall t changed self,
    _input_mode self = "exp" ->
    NoDup (_input_topics self) ->
    str_in t (_input_topics self) = false ->
    (length (_input_topics self) < 257)%nat ->
    let r := add_input_topic t changed self in
    fst r = Ret true /\
    _input_topics (snd r) = _input_topics self ++ [t] /\
    forall k t',
      (_input_topics self ++ [t]) !! k = Some t' ->
      exists q,
        _input_topic_assignments (snd r) !! (inr t' : Z + string) = Some q /\
        (q == budget_formula 900 base_default
                (Z.of_nat (length (_input_topics self)) + 1) (Z.of_nat k))%Q.
Proof.
  intros t changed self Hm Hnd Hno Hlen r.
  split; [|split; [unfold r; rewrite add_input_topic_topics, Hno; reflexivity|]].
  all: set (self1 := with_input_topics self (_input_topics self ++ [t])).
  all: assert (Hnd1 : NoDup (_input_topics self1)).
  1,3: simpl; apply NoDup_app; split; [exact Hnd|]; split;
       [intros x Hx [->|[]]%list_elem_of_In;
        apply list_elem_of_In, str_in_In in Hx; congruence
       |apply NoDup_singleton].
  all: assert (Hlen1 : (1 <= length (_input_topics self1) <= 257)%nat)
         by (simpl; rewrite length_app; simpl; lia).
  all: destruct (_set_input_topic_assignments_exp self1 Hm Hlen1 Hnd1)
         as [H1 H2].
  all: unfold r, add_input_topic; unfold bind at 1; unfold get at 1;
       rewrite Hno; cbn [negb]; unfold bind at 1; unfold bind at 1;
       rewrite Hm; cbn [String.eqb Ascii.eqb Bool.eqb when];
       fold self1;
       destruct (_set_input_topic_assignments self1) as [res s1] eqn:E;
       simpl in H1; subst res.
  - reflexivity.
  - intros k t' Hk. destruct (H2 k t' Hk) as (q & Hq & Hqe).
    exists q. split; [exact Hq|].
    rewrite Hqe. simpl. rewrite length_app. simpl.
    replace (Z.of_nat (length (_input_topics self) + 1))
      with (Z.of_nat (length (_input_topics self)) + 1) by lia.
    reflexivity.
Qed.

Lemma remove_only_input_topic_result t changed self :
  _input_mode self = "exp" ->
  _input_topics self = [t] ->
  remove_input_topic t changed self =
  (Raise IndexError,
   with_input_topic_assignments (with_input_topics self []) ∅).
Proof.
  intros Hm Ht. destruct self; simpl in Hm, Ht; subst.
  unfold remove_input_topic, _set_input_topic_assignments, str_in.
  run. rewrite String.eqb_refl. simpl. rewrite String.eqb_refl. reflexivity.
Qed.

(** X21.  In exp mode, removing the only input topic ends in [IndexError]:
    the topic is gone and the budgets are cleared, but the changed flag is
    not set and nothing is logged. *)
Theorem remove_only_input_topic_exp :
  forall t changed self,
    _input_mode self = "exp" ->
    _input_topics self = [t] ->
    let r := remove_input_topic t changed self in
    fst r = Raise IndexError /\
    _input_topics (snd r) = [] /\
    _input_topic_assignments (snd r) = ∅ /\
    journal (snd r) = journal self.
Proof.
  intros t changed self Hm Ht r. unfold r.
  rewrite (remove_only_input_topic_result t changed self Hm Ht).
  repeat split.
Qed.

Lemma Qsum_map_index {A} (g : A -> Q) (f : Z -> Q) (l : list A) a :
  (forall k x, l !! k = Some x -> (g x == f (Z.of_nat (a + k)))%Q) ->
  (Qsum (map g l) == Qsum (map f (map Z.of_nat (seq a (length l)))))%Q.
Proof.
  revert a. induction l as [|y l IH]; intros a H; simpl; [reflexivity|].
  rewrite (H 0%nat y eq_refl), Nat.add_0_r.
  rewrite (IH (S a)); [reflexivity|].
  intros k x Hk. rewrite (H (S k) x Hk). now rewrite Nat.add_succ_r.
Qed.

(** X22.  In exp mode with 1 to 257 distinct topics
    [_set_input_topic_assignments] returns, the budgets it leaves sum to the
    window of 900 seconds, each is positive and none exceeds that of the
    first topic. *)
Theorem exp_budgets_sum_to_window :
  forall self,
    _input_mode self = "exp" ->
    (1 <= length (_input_topics self) <= 257)%nat ->
    NoDup (_input_topics self) ->
    let self' := snd (_set_input_topic_assignments self) in
    fst (_set_input_topic_assignments self) = Ret tt /\
    (Qsum (assigned_budgets self') == 900)%Q /\
    Forall (fun q => (0 < q)%Q /\ (q <= hd 0%Q (assigned_budgets self'))%Q)
           (assigned_budgets self').
Proof.
  intros self Hm Hlen Hnd self'.
  destruct (_set_input_topic_assignments_exp self Hm Hlen Hnd) as [H1 H2].
  split; [exact H1|].
  set (n := Z.of_nat (length (_input_topics self))).
  assert (Hb : forall k t, _input_topics self !! k = Some t ->
            (default 0%Q (_input_topic_assignments self' !! (inr t : Z + string))
             == budget_formula 900 base_default n (Z.of_nat k))%Q).
  { intros k t Hk. destruct (H2 k t Hk) as (q & Hq & Hqe).
    unfold self'. rewrite Hq. exact Hqe. }
  assert (Ht : _input_topics self' = _input_topics self).
  { apply _set_input_topic_assignments_topics. }
  unfold assigned_budgets. rewrite Ht. split.
  - rewrite (Qsum_map_index _ (budget_formula 900 base_default n) _ 0%nat).
    + replace (length (_input_topics self)) with (Z.to_nat n) by (unfold n; lia).
      fold (py_range n). apply budgets_sum; [reflexivity|unfold n; lia].
    + intros k x Hk. apply Hb. exact Hk.
  - apply Forall_forall. intros q Hq. apply list_elem_of_In, in_map_iff in Hq as (t & <- & Hin).
    apply list_elem_of_In, list_elem_of_lookup in Hin as [k Hk].
    assert (Hhd : exists t0,
              _input_topics self !! 0%nat = Some t0 /\
              hd 0%Q (map (fun t => default 0%Q
                             (_input_topic_assignments self' !! (inr t : Z + string)))
                          (_input_topics self)) =
              default 0%Q (_input_topic_assignments self' !! (inr t0 : Z + string))).
    { destruct (_input_topics self) as [|t0 rest]; [simpl in Hlen; lia|].
      exists t0. split; reflexivity. }
    destruct Hhd as (t0 & H0 & ->).
    rewrite (Hb k t Hk), (Hb 0%nat t0 H0).
    apply lookup_lt_Some in Hk. split.
    + unfold budget_formula.
      assert (Hg : (0 < geometric_sum base_default n)%Q)
        by (apply geometric_sum_pos; [reflexivity|unfold n; lia]).
      assert (Hp : (0 < base_default ^ (n - 1 - Z.of_nat k))%Q)
        by (apply Qpower_0_lt; reflexivity).
      apply Qlt_shift_div_l; [exact Hg|]. nra.
    + apply budget_first_largest; [discriminate|discriminate|unfold n; lia].
Qed.

(** ** Configuration, signals and periodic loops *)

(** X23.  [_set_execution_opts] ends as the product of the consumer timeout
    by 1000 ends.  An int is stored times 1000; a text, which is what the
    command line stores, is stored repeated 1000 times.  When it returns,
    whatever the arguments and the attributes set beforehand, a synchronous
    link is sequential and a sequential link has one main and one RPC
    thread; a link that is not sequential keeps the numbers requested; an
    attribute set beforehand wins over the argument. *)
Theorem execution_opts_invariants :
  forall pre input_mode synchronous sequential num_rpc_threads
         num_main_threads input_topics output_topics kafka_endpoint
         consumer_timeout,
    let timeout := default consumer_timeout (pre_consumer_timeout pre) in
    let r := _set_execution_opts pre input_mode synchronous sequential
               num_rpc_threads num_main_threads input_topics output_topics
               kafka_endpoint consumer_timeout in
    (forall e, py_mul timeout 1000 = Raise e -> r = Raise e) /\
    (forall t, py_mul timeout 1000 = Ret t ->
       exists o,
         r = Ret o /\
         opt_consumer_timeout o = t /\
         (opt_synchronous o = true -> opt_sequential o = true) /\
         (opt_sequential o = true ->
          opt_num_main_threads o = VInt 1 /\ opt_num_rpc_threads o = VInt 1) /\
         (opt_sequential o = false ->
          opt_num_main_threads o =
            default num_main_threads (pre_num_main_threads pre) /\
          opt_num_rpc_threads o =
            default num_rpc_threads (pre_num_rpc_threads pre)) /\
         opt_synchronous o = default synchronous (pre_synchronous pre)) /\
    (forall n, timeout = VInt n ->
       py_mul timeout 1000 = Ret (VInt (n * 1000))) /\
    (forall s, timeout = VStr s ->
       py_mul timeout 1000 = Ret (VStr (str_repeat s 1000))).
Proof.
  intros pre input_mode synchronous sequential num_rpc_threads
         num_main_threads input_topics output_topics kafka_endpoint
         consumer_timeout timeout r.
  split; [|split; [|split]].
  - intros e He. unfold r, _set_execution_opts. fold timeout.
    destruct (default synchronous (pre_synchronous pre)),
             (default sequential (pre_sequential pre)); simpl;
      rewrite He; reflexivity.
  - intros t Ht. unfold r, _set_execution_opts. fold timeout.
    destruct (default synchronous (pre_synchronous pre)) eqn:Hs,
             (default sequential (pre_sequential pre)) eqn:Hq; simpl;
      rewrite Ht; eexists; (split; [reflexivity|]); simpl;
      repeat split; intros; try discriminate; reflexivity.
  - intros n ->. reflexivity.
  - intros s ->. reflexivity.
Qed.

(** X24.  The signal handler stops the link on SIGTERM and SIGQUIT only: on
    SIGINT it ends in [UnboundLocalError] and leaves the link as it was, and
    on SIGTERM the message logged names SIGINT. *)
Theorem signal_handler_stops_only_on_term_and_quit :
  forall self,
    _signal_handler SIGINT self = (Raise UnboundLocalError, self) /\
    (forall sig, sig = SIGTERM \/ sig = SIGQUIT ->
       fst (_signal_handler sig self) = Ret tt /\
       will_stop (snd (_signal_handler sig self)) = true) /\
    journal (snd (_signal_handler SIGTERM self)) =
      journal self ++ [Log WARN "[SUICIDE] (SIGINT)";
                       Log INFO "stopping threads..."] /\
    journal (snd (_signal_handler SIGQUIT self)) =
      journal self ++ [Log WARN "[SUICIDE] (SIGQUIT)";
                       Log INFO "stopping threads..."].
Proof.
  intros self. split; [reflexivity|]. split.
  - intros sig [->| ->]; split; reflexivity.
  - split; unfold _signal_handler; run; rewrite <- app_assoc; reflexivity.
Qed.

Lemma Qltb_true a b : Qltb a b = true <-> (a < b)%Q.
Proof.
  unfold Qltb. rewrite negb_true_iff. split.
  - intros H. apply Qnot_le_lt. intros Hle. apply Qle_bool_iff in Hle. congruence.
  - intros H. destruct (Qle_bool b a) eqn:E; [|reflexivity].
    apply Qle_bool_iff in E. lra.
Qed.

(** X25.  One round of a periodic loop: when the target returns before the
    interval has passed the round sleeps for the rest of the interval, and
    not at all when the target took longer; when the target raises the
    exception is logged and the round does not sleep; the link is never
    stopped. *)
Theorem loop_round_period :
  forall target_name interval start_timestamp end_timestamp outcome self,
    let r := _loop_task_round target_name interval start_timestamp
                              end_timestamp outcome self in
    (forall e, outcome = Raise e ->
       fst r = Ret None /\
       journal (snd r) =
       journal self ++
       [Log INFO ("new loop iteration (" +:+ target_name +:+ ")");
        Log EXCEPTION ("exception raised when executing the loop: "
                       +:+ target_name)]) /\
    (outcome = Ret tt ->
       (end_timestamp - start_timestamp < interval)%Q ->
       exists s, fst r = Ret (Some s) /\
                 (s + (end_timestamp - start_timestamp) == interval)%Q) /\
    (outcome = Ret tt ->
       (interval <= end_timestamp - start_timestamp)%Q ->
       fst r = Ret None) /\
    will_stop (snd r) = will_stop self.
Proof.
  intros target_name interval start_timestamp end_timestamp outcome self r.
  unfold r, _loop_task_round. split; [|split; [|split]].
  - intros e ->. run. rewrite <- app_assoc. split; reflexivity.
  - intros -> Hlt. run.
    assert (H : Qltb 0 (interval - end_timestamp + start_timestamp) = true)
      by (apply Qltb_true; lra).
    rewrite H. eexists. split; [reflexivity|]. simpl. ring.
  - intros -> Hle. run.
    destruct (Qltb 0 (interval - end_timestamp + start_timestamp)) eqn:H;
      [|reflexivity].
    apply Qltb_true in H. lra.
  - destruct outcome as [[]|e]; run;
      try destruct (Qltb 0 (interval - end_timestamp + start_timestamp));
      reflexivity.
Qed.

(** ** Further instances on sample data *)

Lemma commit_after_publish_witness :
  let r :=
    _kafka_producer_rounds sample_encode sample_pickle sample_sendable
      [NoFault; NoFault]
      (snd (_transform
              (Ret (VTuple [VList [VElectron (Electron_new VNone (VInt 7)
                                                           None false);
                                   VStr "a"];
                            VFun "on_published"]))
              commit_cb (Callback_new None) sample_link)) in
  fst r = Ret tt /\ _output_messages (snd r) = [] /\
  executed (journal (snd r)) = [commit_cb; user_cb].
Proof.
  assert (Hnd : NoDup (returned_envelopes
                         (VList [VElectron (Electron_new VNone (VInt 7)
                                                         None false);
                                 VStr "a"])))
    by (simpl; apply NoDup_singleton).
  destruct (commit_after_publish sample_encode sample_pickle sample_sendable
              (VTuple [VList [VElectron (Electron_new VNone (VInt 7)
                                                      None false);
                              VStr "a"];
                       VFun "on_published"]) commit_cb
              (Callback_new None)
              (VList [VElectron (Electron_new VNone (VInt 7) None false);
                      VStr "a"])
              user_cb sample_link
              eq_refl ltac:(discriminate) Hnd eq_refl eq_refl eq_refl
              ltac:(discriminate))
    as (H1 & H2 & first & last_e & Hl & HJ).
  split; [exact H1|]. split; [exact H2|].
  assert (Hf : first = [Electron_new VNone (VInt 7) None false]).
  { change ([Electron_new VNone (VInt 7) None false] ++
            [Electron_new VNone (VStr "a") None true] = first ++ [last_e])
      in Hl.
    apply app_inj_tail in Hl as [Hl _]. symmetry. exact Hl. }
  etransitivity; [exact (f_equal executed HJ)|].
  rewrite Hf. reflexivity.
Defined.

Lemma transform_nothing_returned_witness :
  _transform (Ret VNone) commit_cb (Callback_new None) sample_link =
  (Ret tt,
   with_journal sample_link
     [Log DEBUG "electron transformed"; Execute commit_cb]).
Proof.
  rewrite (transform_nothing_returned VNone commit_cb (Callback_new None)
             VNone (Callback_new None) sample_link eq_refl (or_introl eq_refl)).
  reflexivity.
Defined.

Lemma produce_async_runs_no_callback_witness :
  executed (journal (snd (
    _produce sample_encode sample_pickle sample_sendable NoFault
      (VElectron (mkElectron VNone (VStr "a") None None true [user_cb]))
      None sample_link_async))) = [].
Proof.
  destruct (produce_async_runs_no_callback sample_encode sample_pickle
              sample_sendable NoFault
              (mkElectron VNone (VStr "a") None None true [user_cb])
              None sample_link_async "out" eq_refl
              (or_intror (conj eq_refl (ex_intro _ [] eq_refl))))
    as (_ & H & _).
  exact H.
Defined.

Lemma produce_failed_still_runs_callbacks_witness :
  let r :=
    _produce sample_encode sample_pickle sample_sendable ProduceRaises
      (VElectron (mkElectron VNone (VStr "a") None None true [commit_cb]))
      None sample_link in
  will_stop (snd r) = true /\ executed (journal (snd r)) = [commit_cb].
Proof.
  destruct (produce_failed_still_runs_callbacks sample_encode sample_pickle
              sample_sendable ProduceRaises
              (mkElectron VNone (VStr "a") None None true [commit_cb])
              None sample_link "out" ltac:(discriminate) eq_refl
              (or_intror (conj eq_refl (ex_intro _ [] eq_refl))))
    as (_ & H1 & _ & H2).
  split; [exact H1 | exact H2].
Defined.

Lemma send_text_is_published_raw_witness :
  produced (run_journal
              (send sample_encode sample_pickle sample_sendable NoFault
                    (VStr "a") None None None (Some true)) sample_link_async) =
  [Produce true "out" None (RawString "a")].
Proof.
  exact (send_text_is_published_raw sample_encode sample_pickle
           sample_sendable NoFault "a" None None None sample_link_async "out"
           (or_intror (conj eq_refl (ex_intro _ [] eq_refl)))).
Defined.

Lemma transform_text_in_list_published_raw_witness :
  journal (snd (
    _kafka_producer_rounds sample_encode sample_pickle sample_sendable
      [NoFault]
      (snd (_transform (Ret (VList [VStr "a"])) commit_cb (Callback_new None)
                       sample_link)))) =
  [Log DEBUG "electron transformed";
   Produce true "out" (Some (sample_encode "link-1")) (RawString "a");
   Flush; Log DEBUG "electron produced"; Execute commit_cb].
Proof.
  destruct (transform_text_in_list_published_raw sample_encode
              sample_pickle sample_sendable "a" commit_cb (Callback_new None)
              sample_link "out" [] eq_refl eq_refl eq_refl eq_refl)
    as (_ & H).
  exact H.
Defined.

Lemma bus_rpc_invokes_with_context_witness :
  _kafka_rpc_call sample_registry (Ret VNone)
    (mkElectron VNone
       (rpc_payload (VStr "add_to_store") "catenae_link" "link-2" VNone
                    (VDict [("host", VStr "10.0.0.2")]))
       None (Some "catenae_rpc_broadcast") false [])
    commit_cb sample_link =
  (Ret tt,
   with_journal sample_link
     [Log DEBUG "RPC invocation from link-2 (catenae_link)";
      Invoke "add_to_store" []
        [("host", VStr "10.0.0.2");
         ("context", rpc_context "catenae_link" "link-2"
                                 (Some "catenae_rpc_broadcast"))];
      Execute commit_cb]).
Proof.
  assert (H : _rpc_enabled_method sample_registry (VStr "add_to_store")
              = Ret true) by (vm_compute; reflexivity).
  destruct (bus_rpc_invokes_with_context sample_registry (Ret VNone)
              "add_to_store" "catenae_link" "link-2" VNone
              (VDict [("host", VStr "10.0.0.2")])
              (Some "catenae_rpc_broadcast") commit_cb sample_link H)
    as [Hkw _].
  rewrite (Hkw [("host", VStr "10.0.0.2")] eq_refl ltac:(discriminate) eq_refl).
  reflexivity.
Defined.

Lemma reannounce_keeps_old_group_witness :
  let r :=
    (add_to_store "10.0.0.1" "9494" true "uid-a" "group-1" "10.0.0.2" "9494"
                  "http" ;;;
     add_to_store "10.0.0.1" "9494" true "uid-a" "group-2" "10.0.0.2" "9494"
                  "http") sample_link in
  by_uid (_store (snd r)) !! "uid-a" =
    Some (mkInstanceInfo "10.0.0.2" "9494" "http" "uid-a" "group-2") /\
  exists members,
    by_group (_store (snd r)) !! "group-1" = Some members /\
    members !! "uid-a" =
      Some (mkInstanceInfo "10.0.0.2" "9494" "http" "uid-a" "group-1").
Proof.
  destruct (reannounce_keeps_old_group "10.0.0.1" "9494" "uid-a" "group-1"
              "group-2" "10.0.0.2" "9494" "http" sample_link eq_refl
              ltac:(discriminate)) as (_ & H1 & H2 & _).
  split; [exact H1 | exact H2].
Defined.

Lemma jsonrpc_call_uses_announced_address_witness :
  fst (jsonrpc_call sample_json_request sample_urlopen "uid-a"
         (VStr "available") None (VInt 0)
         (snd (add_to_store "10.0.0.1" "9494" true "uid-a" "group-1"
                            "10.0.0.2" "9494" "http" sample_link))) =
  Ret (VStr "http://10.0.0.2:9494").
Proof.
  destruct (jsonrpc_call_uses_announced_address sample_json_request
              sample_urlopen "10.0.0.1" "9494" "uid-a" "group-1" "10.0.0.2"
              "9494" "http" (VStr "available") None (VInt 0) sample_link
              eq_refl) as (H & _).
  exact H.
Defined.

Lemma rpc_consumer_empty_poll_witness :
  _kafka_consumer_rpc_round (_rpc_topics sample_link "link") PollNone
                            sample_link = (Ret Break, sample_link).
Proof.
  exact (rpc_consumer_empty_poll sample_link "link" PollNone eq_refl).
Defined.

Lemma exp_slice_never_ends_witness :
  let ticks := [mkTick 3600000 false (PollMessage sample_message None);
                mkTick 7200000 false PollNone] in
  let r := slice_loop "hi" ["hi"] 0 1 ticks (mkSliceState [] 0)
                      sample_link_async in
  fst r = Ret (mkSliceState [] 0, StillRunning) /\
  items (_input_messages (snd r)) = [QMessage sample_message].
Proof.
  assert (Ht : Forall (fun tick => (0 <= tick_now tick)%Q /\
                          tick_changed tick = false /\
                          tick_polled tick <> PollRaises)
                 [mkTick 3600000 false (PollMessage sample_message None);
                  mkTick 7200000 false PollNone]).
  { repeat constructor; discriminate. }
  destruct (exp_slice_never_ends "hi" 0 1 _ (mkSliceState [] 0)
              sample_link_async eq_refl eq_refl eq_refl Ht) as (H1 & H2 & _).
  split; [exact H1 | exact H2].
Defined.

Lemma dispatch_of_consumed_witness :
  exists cb e',
    fst (_input_handler_round sample_decode sample_loads
           (_rpc_topics sample_link "link")
           (slice_item sample_link sample_message) sample_link) =
    Ret (Some (ToMainExecutor e' cb (Callback_new None))) /\
    topic e' = None /\ previous_topic e' = Some "hi" /\
    Callback_bool cb = true.
Proof.
  destruct (dispatch_of_consumed sample_decode sample_loads
              (_rpc_topics sample_link "link") sample_message
              (Electron_new VNone (VStr "a") None false) sample_link eq_refl)
    as (cb & H1 & H2 & _).
  exists cb. eexists. split; [exact H1|]. split; [reflexivity|].
  split; [reflexivity | exact H2].
Defined.

Lemma dispatch_drops_unsupported_witness :
  fst (_input_handler_round sample_decode sample_loads
         (_rpc_topics sample_link "link")
         (commit_item sample_unsupported_message) sample_link) = Ret None.
Proof.
  destruct (dispatch_drops_unsupported sample_decode sample_loads
              (_rpc_topics sample_link "link")
              (commit_item sample_unsupported_message) sample_link eq_refl)
    as (H & _).
  exact H.
Defined.

Lemma rpc_call_reaches_rpc_executor_witness :
  exists e' cb,
    fst (_input_handler_round sample_decode sample_loads
           (_rpc_topics sample_link "link")
           (slice_item sample_link sample_rpc_message) sample_link) =
    Ret (Some (ToRpcExecutor e' cb)).
Proof.
  apply (rpc_call_reaches_rpc_executor sample_decode sample_loads sample_lower
           "Broadcast" "link" sample_rpc_message
           (Electron_new VNone (VStr "a") None false) sample_link
           eq_refl eq_refl).
  right. right. reflexivity.
Defined.

Lemma add_then_remove_restores_topics_witness :
  _input_topics
    (snd (remove_input_topic "new" false
            (snd (add_input_topic "new" false sample_link)))) =
  ["hi"; "med"; "lo"].
Proof.
  destruct (add_then_remove_restores_topics "new" false false sample_link
              eq_refl) as (_ & H & _).
  exact H.
Defined.

Lemma add_input_topic_exp_witness :
  fst (add_input_topic "new" false sample_link) = Ret true /\
  _input_topics (snd (add_input_topic "new" false sample_link)) =
  ["hi"; "med"; "lo"; "new"].
Proof.
  assert (Hnd : NoDup (_input_topics sample_link))
    by (apply (bool_decide_unpack (NoDup _)); vm_compute; exact I).
  assert (Hlen : (length (_input_topics sample_link) < 257)%nat)
    by (simpl; lia).
  destruct (add_input_topic_exp "new" false sample_link eq_refl Hnd eq_refl
              Hlen) as (H1 & H2 & _).
  split; [exact H1 | exact H2].
Defined.

Lemma remove_only_input_topic_exp_witness :
  fst (remove_input_topic "hi" false
         (with_input_topics sample_link ["hi"])) = Raise IndexError.
Proof.
  destruct (remove_only_input_topic_exp "hi" false
              (with_input_topics sample_link ["hi"]) eq_refl eq_refl)
    as (H & _).
  exact H.
Defined.

Lemma exp_budgets_sum_to_window_witness :
  (Qsum (assigned_budgets (snd (_set_input_topic_assignments sample_link)))
   == 900)%Q.
Proof.
  assert (Hnd : NoDup (_input_topics sample_link))
    by (apply (bool_decide_unpack (NoDup _)); vm_compute; exact I).
  assert (Hlen : (1 <= length (_input_topics sample_link) <= 257)%nat)
    by (simpl; lia).
  destruct (exp_budgets_sum_to_window sample_link eq_refl Hlen Hnd)
    as (_ & H & _).
  exact H.
Defined.

Lemma execution_opts_invariants_witness :
  exists o,
    _set_execution_opts
      (mkPresetOpts None (Some true) None None None None None None
                    (Some (VStr "300")))
      "parity" false false (VInt 4) (VInt 4) VNone VNone
      (VStr "localhost:9092") (VInt 300) = Ret o /\
    opt_consumer_timeout o = VStr (str_repeat "300" 1000) /\
    opt_num_main_threads o = VInt 1.
Proof.
  destruct (execution_opts_invariants
              (mkPresetOpts None (Some true) None None None None None None
                            (Some (VStr "300")))
              "parity" false false (VInt 4) (VInt 4) VNone VNone
              (VStr "localhost:9092") (VInt 300)) as (_ & H & _ & Hs).
  destruct (H _ (Hs "300" eq_refl)) as (o & Ho & Ht & _ & Hseq & _).
  exists o. split; [exact Ho|]. split; [exact Ht|].
  injection Ho as <-. reflexivity.
Defined.
